(** * script-tree: the filter box, the double-click preference and the backups

    A shallow embedding of the logic of [script_tree/script_tree_ui.py],
    [script_tree/ui_utils.py], [script_tree/script_tree_utils.py] and
    [script_tree/logger.py], with the properties of the specification
    stated over it. *)

From Stdlib Require Import ZArith NArith QArith Qround Ascii String DecimalString DecimalZ.
From stdpp Require Import base tactics option list strings gmap fin_maps.

Local Open Scope Z_scope.
Local Open Scope string_scope.
Local Open Scope list_scope.

(** ** Text of the search bar

    [QLineEdit.text()] is a unicode string: a sequence of code points.
    ASCII literals of the source are written as Rocq strings and read
    through [cps]. *)

Module Text.

Abbreviation ustring := (list N).

Definition cps (s : string) : ustring :=
  (λ a, N_of_ascii a) <$> list_ascii_of_string s.

Definition comma : N := 44%N.
Definition space : N := 32%N.
Definition tab : N := 9%N.

(** The character class [[^\x00-\x7F]] of the regular expression. *)
Definition non_ascii (c : N) : bool := (127 <? c)%N.

(** [re.sub(r'[^\x00-\x7F]+', '', s)]: every maximal run of characters
    above U+007F is replaced by the empty string, which leaves the
    characters up to U+007F in their order. *)
Fixpoint re_sub_non_ascii (s : ustring) : ustring :=
  match s with
  | [] => []
  | c :: r => if non_ascii c then re_sub_non_ascii r else c :: re_sub_non_ascii r
  end.

(** [s.split(",")]: the pieces between the commas, empty ones included;
    the list is never empty. *)
Fixpoint split_comma (s : ustring) : list ustring :=
  match s with
  | [] => [[]]
  | c :: r =>
      if (c =? comma)%N then [] :: split_comma r
      else match split_comma r with
           | piece :: pieces => (c :: piece) :: pieces
           | [] => [[c]]
           end
  end.

(** [s.replace(" ", "")]: only U+0020 is removed. *)
Definition remove_spaces (s : ustring) : ustring :=
  filter (λ c, c ≠ space) s.

(** ["*{}*.py".format(t)] and ["*{}*.mel".format(t)]. *)
Definition py_pattern (t : ustring) : ustring := cps "*" ++ t ++ cps "*.py".
Definition mel_pattern (t : ustring) : ustring := cps "*" ++ t ++ cps "*.mel".

End Text.

Import Text.

(** ** The browser widget and [ScriptTreeWindow.filter_results] *)

Module Filter.

(** The part of [ScriptTreeWidget] the filter touches: the text of the
    search bar, the name filters of the file-system model, and the tree
    view, one expansion flag per row. *)
Record ScriptTreeWidget := {
  search_bar : ustring;
  name_filters : list ustring;
  tree_view : list bool;
}.

Definition default_filter : list ustring := [cps "*.py"; cps "*.mel"].

Definition setNameFilters (fs : list ustring) (ui : ScriptTreeWidget) : ScriptTreeWidget :=
  {| search_bar := search_bar ui; name_filters := fs; tree_view := tree_view ui |}.

Definition collapseAll (ui : ScriptTreeWidget) : ScriptTreeWidget :=
  {| search_bar := search_bar ui; name_filters := name_filters ui;
     tree_view := (λ _, false) <$> tree_view ui |}.

Definition expandAll (ui : ScriptTreeWidget) : ScriptTreeWidget :=
  {| search_bar := search_bar ui; name_filters := name_filters ui;
     tree_view := (λ _, true) <$> tree_view ui |}.

(** The body of the [for] loop: two patterns per piece. *)
Definition term_patterns (filter_string : ustring) : list ustring :=
  let filter_string := remove_spaces filter_string in
  [py_pattern filter_string; mel_pattern filter_string].

Definition build_filters (filter_text : ustring) : list ustring :=
  split_comma filter_text ≫= term_patterns.

Definition filter_results (ui : ScriptTreeWidget) : ScriptTreeWidget :=
  let filter_text := re_sub_non_ascii (search_bar ui) in
  match filter_text with
  | [] => collapseAll (setNameFilters default_filter ui)
  | _ :: _ => setNameFilters (build_filters filter_text) (expandAll ui)
  end.

(** The widget once the user has typed [q]. *)
Definition typed (q : ustring) (ui : ScriptTreeWidget) : ScriptTreeWidget :=
  {| search_bar := q; name_filters := name_filters ui; tree_view := tree_view ui |}.

(** What the specification calls [computePatterns]: the name filters in
    force after [filter_results], and whether the branch taken was the one
    that expands. *)
Definition all_expanded (ui : ScriptTreeWidget) : Prop :=
  Forall (λ b, b = true) (tree_view ui).
Definition all_collapsed (ui : ScriptTreeWidget) : Prop :=
  Forall (λ b, b = false) (tree_view ui).

Definition pattern_set (ui : ScriptTreeWidget) : gset ustring :=
  list_to_set (name_filters ui).

End Filter.

(** ** The persisted preference and the double-click connection *)

Module Panel.

(** [ScriptTreeConstants] and [ScriptEditorSettings]: the two choices and
    the key they are stored under. *)
Definition run_script_on_click : string := "Run Script on Double-Click".
Definition edit_script_on_click : string := "Edit Script on Double-Click".
Definition k_double_click_action : string := "script_tree/double_click_action".

(** [QSettings]: an INI file of string values. [value key] is [None] for a
    key that was never set, [value key defaultValue] is the default. *)
Abbreviation QSettings := (gmap string string).

Definition value (settings : QSettings) (key : string) : option string :=
  settings !! key.

Definition value_or (settings : QSettings) (key defaultValue : string) : string :=
  default defaultValue (settings !! key).

Definition setValue (key v : string) (settings : QSettings) : QSettings :=
  <[key := v]> settings.

(** The two slots [tree_view.doubleClicked] is ever connected to. *)
Inductive slot := action_open_script | action_run_script.

#[export] Instance slot_eq_dec : EqDecision slot.
Proof. solve_decision. Defined.

(** The window: its settings object and the slots connected to the
    [doubleClicked] signal of the tree view, in connection order. *)
Record ScriptTreeWindow := {
  settings : QSettings;
  doubleClicked : list slot;
}.

(** [doubleClicked.disconnect()] drops every connection; the
    [RuntimeError] it raises when there is none is passed over. *)
Definition disconnect (w : ScriptTreeWindow) : ScriptTreeWindow :=
  {| settings := settings w; doubleClicked := [] |}.

Definition connect (s : slot) (w : ScriptTreeWindow) : ScriptTreeWindow :=
  {| settings := settings w; doubleClicked := doubleClicked w ++ [s] |}.

Definition action_setup_double_click_connections (w : ScriptTreeWindow) : ScriptTreeWindow :=
  let w := disconnect w in
  let settings_value := value_or (settings w) k_double_click_action edit_script_on_click in
  if decide (settings_value = edit_script_on_click)
  then connect action_open_script w
  else connect action_run_script w.

(** [ui_utils.set_settings_value]: store, then run the trigger command. *)
Definition set_settings_value (key v : string)
    (post_set_command : ScriptTreeWindow → ScriptTreeWindow)
    (w : ScriptTreeWindow) : ScriptTreeWindow :=
  post_set_command {| settings := setValue key v (settings w);
                      doubleClicked := doubleClicked w |}.

(** Python truth of [item_to_check]: [None] and the empty string are
    false. *)
Definition truthy (o : option string) : bool :=
  match o with
  | Some s => negb (String.eqb s "")
  | None => false
  end.

(** The [RADIO_SETTING] branch of [ui_utils.build_menu_from_action_list]:
    one checkable action per choice, with its text and whether
    [setChecked(True)] was called on it. *)
Definition radio_setting (settings : QSettings) (settings_key : string)
    (choices : list string) (default_choice : string) : list (string * bool) :=
  let item_to_check := value settings settings_key in
  let item_to_check :=
    if truthy item_to_check then default default_choice item_to_check
    else default_choice in
  (λ choice_key, (choice_key, bool_decide (choice_key = item_to_check))) <$> choices.

(** The radio group of [ScriptTreeWindow.context_menu_actions]. *)
Definition context_menu_radio (w : ScriptTreeWindow) : list (string * bool) :=
  radio_setting (settings w) k_double_click_action
    [run_script_on_click; edit_script_on_click] run_script_on_click.

(** [ScriptTreeWindow.__init__], as far as the double click goes: the
    settings object is opened on what earlier sessions left, and
    [setup_connections] makes the first connection. *)
Definition init (stored : QSettings) : ScriptTreeWindow :=
  action_setup_double_click_connections {| settings := stored; doubleClicked := [] |}.

(** What the user does: picks one of the two radio items of the context
    menu, or double-clicks a row. *)
Inductive choice := RunOnDoubleClick | EditOnDoubleClick.

#[export] Instance choice_eq_dec : EqDecision choice.
Proof. solve_decision. Defined.

(** The slot a choice of the menu stands for. *)
Definition choice_slot (c : choice) : slot :=
  match c with
  | RunOnDoubleClick => action_run_script
  | EditOnDoubleClick => action_open_script
  end.

Definition choice_text (c : choice) : string :=
  match c with
  | RunOnDoubleClick => run_script_on_click
  | EditOnDoubleClick => edit_script_on_click
  end.

Inductive event := MenuSelect (c : choice) | DoubleClick.

(** One event: the window afterwards, and the slots the event invoked. *)
Definition step (w : ScriptTreeWindow) (e : event) : ScriptTreeWindow * list slot :=
  match e with
  | MenuSelect c =>
      (set_settings_value k_double_click_action (choice_text c)
         action_setup_double_click_connections w, [])
  | DoubleClick => (w, doubleClicked w)
  end.

Definition run (w : ScriptTreeWindow) (es : list event) : ScriptTreeWindow :=
  foldl (λ w e, (step w e).1) w es.

(** The slots a double click invokes in [w]. *)
Definition double_click (w : ScriptTreeWindow) : list slot := (step w DoubleClick).2.

End Panel.

(** ** The operating system as the backups see it

    Paths are kept split into their components, so [os.path.join dir name]
    appends one component and [basename] and [dirname] take the last one
    off. Names are strings; the disk is a tree of directories. *)

Module OS.

Abbreviation path := (list string).

#[warnings="-register-all"]
Inductive node :=
  | File (data : string) (mtime : Z)
  | Dir (entries : gmap string node).

Definition is_dir (o : option node) : bool :=
  match o with Some (Dir _) => true | _ => false end.

Definition is_file (o : option node) : bool :=
  match o with Some (File _ _) => true | _ => false end.

(** What is found at [p] below [n]. *)
Fixpoint stat (n : node) (p : path) : option node :=
  match p with
  | [] => Some n
  | c :: p' =>
      match n with
      | Dir es => es !! c ≫= λ n', stat n' p'
      | File _ _ => None
      end
  end.

(** [x] written at [p]; the directory that holds it has to be there. *)
Fixpoint put (n : node) (p : path) (x : node) : option node :=
  match p with
  | [] => Some x
  | c :: p' =>
      match n with
      | Dir es =>
          match p' with
          | [] => Some (Dir (<[c := x]> es))
          | _ :: _ => n' ← es !! c; n'' ← put n' p' x; Some (Dir (<[c := n'']> es))
          end
      | File _ _ => None
      end
  end.

(** Every missing directory on the way to [p] and [p] itself made; none
    when a regular file is in the way. *)
Fixpoint mkdirs (n : node) (p : path) : option node :=
  match n with
  | File _ _ => None
  | Dir es =>
      match p with
      | [] => Some n
      | c :: p' => n' ← mkdirs (default (Dir ∅) (es !! c)) p'; Some (Dir (<[c := n']> es))
      end
  end.

(** [os.path] on component lists, and [os.path.splitext] on a name. *)
Definition basename (p : path) : string := default "" (last p).
Definition dirname (p : path) : path := removelast p.
Definition join (p : path) (name : string) : path := p ++ [name].

Definition dot : ascii := "."%char.

(** The name cut at its last dot. *)
Fixpoint rsplit_dot (s : string) : option (string * string) :=
  match s with
  | EmptyString => None
  | String c r =>
      match rsplit_dot r with
      | Some (a, b) => Some (String c a, b)
      | None => if Ascii.eqb c dot then Some (EmptyString, s) else None
      end
  end.

Fixpoint all_dots (s : string) : bool :=
  match s with
  | EmptyString => true
  | String c r => Ascii.eqb c dot && all_dots r
  end.

(** [genericpath._splitext]: the extension starts at the last dot, unless
    only dots come before it. *)
Definition splitext (name : string) : string * string :=
  match rsplit_dot name with
  | Some (root, ext) => if all_dots root then (name, "") else (root, ext)
  | None => (name, "")
  end.

(** [int(x)] of a float truncates towards zero; [str] of an integer is its
    decimal numeral. *)
Definition int_of_float (x : Q) : Z := Z.quot (Qnum x) (Z.pos (Qden x)).
Definition str_of_int (z : Z) : string := NilZero.string_of_int (Z.to_int z).

(** A path as the log message shows it. *)
Definition render (p : path) : string :=
  foldr (λ c acc, "/" +:+ c +:+ acc) "" p.

(** *** Exceptions, loggers, and the world *)

Inductive exn :=
  | FileExistsError (p : path)
  | FileNotFoundError (p : path)
  | NotADirectoryError (p : path)
  | IsADirectoryError (p : path)
  | SameFileError (p : path)
  | PermissionError (p : path)
  | OSError (msg : string).

(** [str(e)]. *)
Definition str_of_exn (e : exn) : string :=
  match e with
  | FileExistsError p => "File exists: " +:+ render p
  | FileNotFoundError p => "No such file or directory: " +:+ render p
  | NotADirectoryError p => "Not a directory: " +:+ render p
  | IsADirectoryError p => "Is a directory: " +:+ render p
  | SameFileError p => render p +:+ " are the same file"
  | PermissionError p => "Permission denied: " +:+ render p
  | OSError msg => msg
  end.

(** [logger.py]: the logger of the package, and the root logger behind the
    functions of the [logging] module. *)
Record Logger := {
  logger_name : string;
  propagate : bool;
}.

Definition root : Logger := {| logger_name := "root"; propagate := true |}.

Definition set_logger : Logger := {| logger_name := "Script-Tree"; propagate := false |}.

Definition log : Logger := set_logger.

Inductive levelname := DEBUG | INFO | WARNING | ERROR.

Record LogRecord := {
  record_logger : Logger;
  record_level : levelname;
  record_msg : string;
}.

(** The calls that reach the script editor of the host. *)
Inductive host_call := saveFile (script_path : path).

(** The calls into the file system that can fail for reasons of the
    machine (permissions, a full disk). *)
Inductive syscall :=
  | sys_makedirs (p : path)
  | sys_copy2 (src dst : path)
  | sys_listdir (p : path)
  | sys_copytree (src dst : path).

Record world := {
  disk : node;
  clock : Q;
  records : list LogRecord;
  host : list host_call;
  fault : syscall → node → option exn;
}.

Definition set_disk (d : node) (w : world) : world :=
  {| disk := d; clock := clock w; records := records w; host := host w; fault := fault w |}.

Definition add_record (r : LogRecord) (w : world) : world :=
  {| disk := disk w; clock := clock w; records := records w ++ [r]; host := host w;
     fault := fault w |}.

Definition add_host (c : host_call) (w : world) : world :=
  {| disk := disk w; clock := clock w; records := records w; host := host w ++ [c];
     fault := fault w |}.

Definition set_clock (t : Q) (w : world) : world :=
  {| disk := disk w; clock := t; records := records w; host := host w; fault := fault w |}.

(** A machine on which no call fails for such a reason. *)
Definition no_fault : syscall → node → option exn := λ _ _, None.

(** *** Statements: a state monad with exceptions *)

Inductive outcome (A : Type) :=
  | Return (a : A)
  | Raise (e : exn).
Arguments Return {A} a.
Arguments Raise {A} e.

Definition M (A : Type) : Type := world → outcome A * world.

#[export] Instance M_ret : MRet M := λ A a w, (Return a, w).

#[export] Instance M_bind : MBind M := λ A B k m w,
  match m w with
  | (Return a, w') => k a w'
  | (Raise e, w') => (Raise e, w')
  end.

(** [try: body except Exception as e: handler(e)]. *)
Definition try_except {A} (body : M A) (handler : exn → M A) : M A := λ w,
  match body w with
  | (Return a, w') => (Return a, w')
  | (Raise e, w') => handler e w'
  end.

Definition raise {A} (e : exn) : M A := λ w, (Raise e, w).

(** [for x in l: body(x)]. *)
Fixpoint for_each {A} (l : list A) (body : A → M unit) : M unit :=
  match l with
  | [] => mret ()
  | x :: l' => body x;; for_each l' body
  end.

Definition get_disk : M node := λ w, (Return (disk w), w).
Definition write_disk (d : node) : M unit := λ w, (Return (), set_disk d w).

Definition check_fault (c : syscall) : M unit := λ w,
  match fault w c (disk w) with
  | Some e => (Raise e, w)
  | None => (Return (), w)
  end.

(** *** The library calls *)

Definition time_time : M Q := λ w, (Return (clock w), w).

Definition path_exists (p : path) : M bool :=
  d ← get_disk; mret (bool_decide (is_Some (stat d p))).

Definition path_isdir (p : path) : M bool :=
  d ← get_disk; mret (is_dir (stat d p)).

(** [os.makedirs]: fails on an existing leaf and on a file in the way. *)
Definition makedirs (p : path) : M unit :=
  check_fault (sys_makedirs p);;
  d ← get_disk;
  match stat d p with
  | Some _ => raise (FileExistsError p)
  | None =>
      match mkdirs d p with
      | Some d' => write_disk d'
      | None => raise (NotADirectoryError p)
      end
  end.

(** [shutil.copy2]: into the directory when [dst] is one; content and
    modification time are copied. *)
Definition copy2 (src dst : path) : M unit :=
  check_fault (sys_copy2 src dst);;
  d ← get_disk;
  let dst := if is_dir (stat d dst) then join dst (basename src) else dst in
  match stat d src with
  | None => raise (FileNotFoundError src)
  | Some (Dir _) => raise (IsADirectoryError src)
  | Some (File data mtime) =>
      if decide (src = dst) then raise (SameFileError src)
      else match stat d dst with
           | Some (Dir _) => raise (IsADirectoryError dst)
           | _ =>
               match stat d (dirname dst) with
               | Some (Dir _) =>
                   match put d dst (File data mtime) with
                   | Some d' => write_disk d'
                   | None => raise (FileNotFoundError dst)
                   end
               | Some (File _ _) => raise (NotADirectoryError dst)
               | None => raise (FileNotFoundError dst)
               end
           end
  end.

(** [os.listdir]: the names in the directory. *)
Definition listdir (p : path) : M (list string) :=
  check_fault (sys_listdir p);;
  d ← get_disk;
  match stat d p with
  | Some (Dir es) => mret (map_to_list es).*1
  | Some (File _ _) => raise (NotADirectoryError p)
  | None => raise (FileNotFoundError p)
  end.

(** [shutil.copytree]: lists [src], makes [dst], which must not exist, and
    copies the tree below [src] into it. A copy into the tree being copied
    does not come to an end by itself and is cut off by the system. *)
Definition copytree (src dst : path) : M unit :=
  d ← get_disk;
  match stat d src with
  | Some (Dir es) =>
      match stat d dst with
      | Some _ => raise (FileExistsError dst)
      | None =>
          match mkdirs d dst with
          | None => raise (NotADirectoryError dst)
          | Some d1 =>
              write_disk d1;;
              check_fault (sys_copytree src dst);;
              if decide (src `prefix_of` dst) then raise (OSError "File name too long")
              else match put d1 dst (Dir es) with
                   | Some d2 => write_disk d2
                   | None => raise (FileNotFoundError dst)
                   end
          end
      end
  | Some (File _ _) => raise (NotADirectoryError src)
  | None => raise (FileNotFoundError src)
  end.

(** [logging.error], [logging.info]: the functions of the module log
    through the root logger; [log.info] through the logger of the
    package. *)
Definition logger_call (l : Logger) (lv : levelname) (msg : string) : M unit := λ w,
  (Return (), add_record {| record_logger := l; record_level := lv; record_msg := msg |} w).

(** A call to the script editor of the host. *)
Definition host_do (c : host_call) : M unit := λ w, (Return (), add_host c w).

Definition logging_error (e : exn) : M unit := logger_call root ERROR (str_of_exn e).
Definition logging_info (msg : string) : M unit := logger_call root INFO msg.
Definition log_info (msg : string) : M unit := logger_call log INFO msg.

End OS.

Import OS.

(** ** [script_tree_utils]: the backup of a script and of the tree *)

Module Backup.

Section Constants.

(** [ScriptTreeConstants.script_tree_folder]: [ScriptTree/<dcc_name>] in
    the documents folder of the user, whatever that folder is. *)
Variable script_tree_folder : path.

Definition script_backup_folder : path := join script_tree_folder "ScriptTree_ScriptBackup".
Definition tree_backup_folder : path := join script_tree_folder "ScriptTree_TreeBackup".

Definition get_backup_folder_for_script (script_path : path) : path :=
  let '(file_name, file_extension) := splitext (basename script_path) in
  let backup_dir := join script_backup_folder file_name in
  backup_dir.

(** The name and the place of the backup taken at second [unique_time]. *)
Definition backup_file_name (script_path : path) (unique_time : string) : string :=
  let '(file_name, file_extension) := splitext (basename script_path) in
  file_name +:+ "_BACKUP_" +:+ unique_time +:+ file_extension.

Definition backup_file_path (script_path : path) (unique_time : string) : path :=
  join (get_backup_folder_for_script script_path) (backup_file_name script_path unique_time).

(** The statements under [try] in [backup_script]. *)
Definition backup_script_body (script_path : path) : M unit :=
  t ← time_time;
  let unique_time := str_of_int (int_of_float t) in
  let backup_file_path := backup_file_path script_path unique_time in
  there ← path_exists (dirname backup_file_path);
  (if negb there then makedirs (dirname backup_file_path) else mret ());;
  copy2 script_path backup_file_path.

Definition backup_script (script_path : path) : M unit :=
  there ← path_exists script_path;
  if negb there then mret ()
  else try_except (backup_script_body script_path) (λ e, logging_error e).

(** The body of the loop of [copy_directory]. *)
Definition copy_item (src dst : path) (item : string) : M unit :=
  let s := join src item in
  let d := join dst item in
  isdir ← path_isdir s;
  if (isdir : bool) then copytree s d else copy2 s d.

Definition copy_directory (src dst : path) : M unit :=
  there ← path_exists dst;
  (if negb there then makedirs dst else mret ());;
  items ← listdir src;
  for_each items (copy_item src dst).

Definition backup_directory_path (unique_time : string) : path :=
  join tree_backup_folder ("ScriptTree_BACKUP_" +:+ unique_time).

Definition backup_tree (script_folder : path) : M unit :=
  t ← time_time;
  let unique_time := str_of_int (int_of_float t) in
  let backup_directory_path := backup_directory_path unique_time in
  copy_directory script_folder backup_directory_path;;
  logging_info ("ScriptTree Network Folder Saved: " +:+ render backup_directory_path).

(** [script_tree_dcc_maya.save_selected_tab]: the editor writes the tab
    to the file, and the package logger reports it. *)
Definition save_selected_tab (script_path : path) : M unit :=
  host_do (saveFile script_path);;
  log_info ("Saved: " +:+ render script_path).

(** [ScriptTreeWindow.action_save_tab]: [selected] is the path of the
    selected tab, [dialog] the answer of the file dialog; none stands for
    the empty string. *)
Definition action_save_tab (prompt_path : bool) (selected dialog : option path) : M unit :=
  let chosen :=
    if prompt_path || negb (bool_decide (is_Some selected)) then dialog else selected in
  match chosen with
  | None => mret ()
  | Some script_path => backup_script script_path;; save_selected_tab script_path
  end.

(** [ScriptTreeWindow.action_backup_tree]: [ok] is the answer of the
    message box. *)
Definition action_backup_tree (ok : bool) (script_folder : path) : M unit :=
  if ok then backup_tree script_folder else mret ().

End Constants.

End Backup.

(** ** A machine to run the examples on *)

Module Examples.

(** The directories down to [p], with [x] at their end. *)
Fixpoint at_path (p : path) (x : node) : node :=
  match p with
  | [] => x
  | c :: p' => Dir {[ c := at_path p' x ]}
  end.

Definition stf : path := ["home"; "artist"; "Documents"; "ScriptTree"; "Maya"].

Definition rig_py : node := File "import pymel.core as pm" 1699990000.
Definition old_backup : node := File "import maya.cmds as mc" 1699980000.

Definition scripts : gmap string node :=
  {[ "rig.py" := rig_py; "utils" := Dir {[ "names.mel" := File "proc names() {}" 1690000000 ]} ]}.

(** The script tree before any backup. *)
Definition disk_fresh : node := at_path stf (Dir {[ "Scripts" := Dir scripts ]}).

(** The script tree with a backup of [rig.py] taken in second 1700000000. *)
Definition disk_saved : node :=
  at_path stf (Dir {[
    "Scripts" := Dir scripts;
    "ScriptTree_ScriptBackup" :=
      Dir {[ "rig" := Dir {[ "rig_BACKUP_1700000000.py" := old_backup ]} ]} ]}).

(** A regular file where the tree-backup folder should be. *)
Definition disk_blocked : node :=
  at_path stf (Dir {[ "Scripts" := Dir scripts;
                      "ScriptTree_TreeBackup" := File "" 0;
                      "ScriptTree_ScriptBackup" := File "" 0 ]}).

Definition script : path := stf ++ ["Scripts"; "rig.py"].
Definition script_folder : path := stf ++ ["Scripts"].

(** Half a second into second 1700000000. *)
Definition now : Q := 3400000001 # 2.
Definition later : Q := 3400000005 # 2.

Definition machine (d : node) (t : Q) : world :=
  {| disk := d; clock := t; records := []; host := []; fault := no_fault |}.

(** A machine on which every copy is refused. *)
Definition read_only (d : node) (t : Q) : world :=
  {| disk := d; clock := t; records := []; host := [];
     fault := λ c _, match c with
                     | sys_copy2 _ dst => Some (PermissionError dst)
                     | sys_copytree _ dst => Some (PermissionError dst)
                     | _ => None
                     end |}.

End Examples.

(** ** Notions the properties are stated with *)

Module Notions.

Import Filter.

(** [",".join(pieces)]. *)
Fixpoint join_comma (pieces : list ustring) : ustring :=
  match pieces with
  | [] => []
  | [piece] => piece
  | piece :: rest => piece ++ comma :: join_comma rest
  end.

(** A piece of commas and spaces only. *)
Definition blank (s : ustring) : Prop := Forall (λ c, c = comma ∨ c = space) s.

(** The widget the examples start from: the default filters, three rows,
    one of them open. *)
Definition ui0 : ScriptTreeWidget :=
  {| search_bar := []; name_filters := default_filter; tree_view := [false; true; false] |}.

(** The whitespace of ASCII, as [str.isspace] has it: tab to carriage
    return, the four separators, and the space. *)
Definition is_whitespace (c : N) : bool :=
  ((9 <=? c) && (c <=? 13) || (28 <=? c) && (c <=? 32))%N.

Definition remove_whitespace (s : ustring) : ustring :=
  filter (λ c, is_whitespace c = false) s.

(** The patterns the wording "removes whitespace from each term" stands
    for. *)
Definition patterns_without_whitespace (filter_text : ustring) : list ustring :=
  split_comma filter_text ≫= λ t,
    [py_pattern (remove_whitespace t); mel_pattern (remove_whitespace t)].

(** The connection of the double click is the one the stored preference
    asks for. *)
Definition connected_as_stored (w : Panel.ScriptTreeWindow) : Prop :=
  Panel.doubleClicked w
  = Panel.doubleClicked (Panel.action_setup_double_click_connections w).

(** The regular file at [q], by content and modification time. *)
Definition file_at (d : OS.node) (q : OS.path) : option (string * Z) :=
  match OS.stat d q with
  | Some (OS.File data mtime) => Some (data, mtime)
  | _ => None
  end.

(** Neither path leads to the other. *)
Definition apart (p q : OS.path) : Prop :=
  ¬ p `prefix_of` q ∧ ¬ q `prefix_of` p.

End Notions.

Import Notions.

(** ** [script_tree_dcc_maya.toggle_comment_selected_lines] *)

Module Comments.

Definition newline : N := 10%N.
Definition hash : N := 35%N.

(** [s.split("\n")]. *)
Fixpoint split_lines (s : ustring) : list ustring :=
  match s with
  | [] => [[]]
  | c :: r =>
      if (c =? newline)%N then [] :: split_lines r
      else match split_lines r with
           | line :: lines => (c :: line) :: lines
           | [] => [[c]]
           end
  end.

(** ["\n".join(lines)]. *)
Fixpoint join_lines (lines : list ustring) : ustring :=
  match lines with
  | [] => []
  | [line] => line
  | line :: rest => line ++ newline :: join_lines rest
  end.

(** [line.replace("# ", "")]: the occurrences are found from the left and
    do not overlap. *)
Fixpoint remove_hash_space (s : ustring) : ustring :=
  match s with
  | [] => []
  | c :: r =>
      match r with
      | c' :: r' =>
          if (c =? hash)%N && (c' =? space)%N then remove_hash_space r'
          else c :: remove_hash_space r
      | [] => [c]
      end
  end.

(** The text that replaces the selection. *)
Definition toggle_comment_selected_lines (selected_text : ustring) : ustring :=
  let comment_lines :=
    negb (bool_decide (hash ∈ default [] (head (split_lines selected_text)))) in
  let new_text_lines :=
    (λ line, if comment_lines then cps "# " ++ line else remove_hash_space line)
      <$> split_lines selected_text in
  join_lines new_text_lines.

End Comments.

(** ** The timer between the search bar and [filter_results] *)

Module Debounce.

Import Filter.

(** [ScriptTreeConstants.user_input_filter_delay], in milliseconds. *)
Definition user_input_filter_delay : Z := 200.

(** The widget, the single-shot [filter_timer] (the milliseconds left
    while it runs), and how often [filter_results] has run. *)
Record FilterBox := {
  ui : ScriptTreeWidget;
  filter_timer : option Z;
  filter_runs : nat;
}.

(** [QTimer.start(msec)]: a timer that runs is stopped and started
    again. *)
Definition start (msec : Z) (b : FilterBox) : FilterBox :=
  {| ui := ui b; filter_timer := Some msec; filter_runs := filter_runs b |}.

(** [_user_input_filter], the slot of [search_bar.textChanged]. *)
Definition _user_input_filter (b : FilterBox) : FilterBox :=
  start user_input_filter_delay b.

(** What happens to the box: the user changes the text to [q], or [ms]
    milliseconds go by. The timer is single-shot: when its time is up,
    [timeout] runs [filter_results] once and the timer stops. *)
Inductive event := textChanged (q : ustring) | elapse (ms : Z).

Definition step (b : FilterBox) (e : event) : FilterBox :=
  match e with
  | textChanged q =>
      _user_input_filter
        {| ui := typed q (ui b); filter_timer := filter_timer b;
           filter_runs := filter_runs b |}
  | elapse ms =>
      match filter_timer b with
      | Some remaining =>
          if (remaining <=? ms)%Z
          then {| ui := filter_results (ui b); filter_timer := None;
                  filter_runs := S (filter_runs b) |}
          else {| ui := ui b; filter_timer := Some (remaining - ms)%Z;
                  filter_runs := filter_runs b |}
      | None => b
      end
  end.

Definition run (b : FilterBox) (es : list event) : FilterBox := foldl step b es.

(** A burst of typing: each change of the text, and the pause after it. *)
Definition burst (keys : list (ustring * Z)) : list event :=
  keys ≫= λ '(q, ms), [textChanged q; elapse ms].

End Debounce.

(** ** The tabs closed last *)

Module Tabs.

(** The calls of [action_close_tab] and [action_reopen_recently_closed]
    into the script editor of the host. *)
Inductive editor_call :=
  | open_script (script_path : path)
  | delete_selected_tab.

(** [recently_closed_scripts]: the paths of the tabs closed, the last one
    at the end; none stands for the empty string of a tab that has no
    file. *)
Abbreviation closed_scripts := (list (option path)).

(** [selected] is what [get_selected_script_path] returns. *)
Definition action_close_tab (selected : option path)
    (recently_closed_scripts : closed_scripts) : closed_scripts * list editor_call :=
  (recently_closed_scripts ++ [selected], [delete_selected_tab]).

Definition action_reopen_recently_closed
    (recently_closed_scripts : closed_scripts) : closed_scripts * list editor_call :=
  match last recently_closed_scripts with
  | None => (recently_closed_scripts, [])
  | Some recent_script_path =>
      let remaining := removelast recently_closed_scripts in
      match recent_script_path with
      | Some p => (remaining, [open_script p])
      | None => (remaining, [])
      end
  end.

(** The tabs with the paths [ps] closed one after the other. *)
Definition close_all (ps : list (option path)) (stack : closed_scripts) : closed_scripts :=
  foldl (λ stack p, (action_close_tab p stack).1) stack ps.

(** [Ctrl+Shift+T] pressed [n] times: the stack left and the calls made. *)
Fixpoint reopen_times (n : nat) (stack : closed_scripts) : closed_scripts * list editor_call :=
  match n with
  | O => (stack, [])
  | S n =>
      let '(stack', calls) := action_reopen_recently_closed stack in
      let '(stack'', calls') := reopen_times n stack' in
      (stack'', calls ++ calls')
  end.

End Tabs.

(** ** The script folder *)

Module Folder.

Section Constants.

Variable script_tree_folder : path.

(** [ScriptTreeConstants.default_script_folder]. *)
Definition default_script_folder : path := join script_tree_folder "Scripts".

(** The text of [ui.folder_path], which [get_script_folder] returns, and
    the entry of the settings file under [k_folder_path]; none is the
    empty text and the key that was never set. *)
Record ScriptFolder := {
  folder_path_text : option path;
  k_folder_path : option path;
}.

(** [ScriptTreeWidget.set_script_folder]. *)
Definition set_script_folder (p : path) (win : ScriptFolder) : ScriptFolder :=
  {| folder_path_text := Some p; k_folder_path := k_folder_path win |}.

Definition get_script_folder (win : ScriptFolder) : option path := folder_path_text win.

(** [ScriptTreeWindow.action_set_folder]: [dialog] is the answer of the
    directory dialog. *)
Definition action_set_folder (folder_path dialog : option path)
    (win : ScriptFolder) : M ScriptFolder :=
  let chosen := match folder_path with Some p => Some p | None => dialog end in
  match chosen with
  | None => mret win
  | Some p =>
      there ← path_exists p;
      (if negb there then makedirs p else mret ());;
      let win := set_script_folder p win in
      mret {| folder_path_text := folder_path_text win; k_folder_path := Some p |}
  end.

(** The lines of [ScriptTreeWindow.__init__] that read the folder from the
    settings, otherwise take the default folder. *)
Definition init (stored dialog : option path) : M ScriptFolder :=
  let folder_path := default default_script_folder stored in
  action_set_folder (Some folder_path) dialog
    {| folder_path_text := None; k_folder_path := stored |}.

End Constants.

End Folder.

(** ** The dockable widget of Maya *)

Module Dock.

(** [wh.__dict__], from docking names to widget instances, and the number
    of widgets constructed so far, which names the next instance. *)
Record WindowHandler := {
  instances : gmap string nat;
  constructed : nat;
}.

Inductive maya_call :=
  | workspaceControl_close (name : string)
  | deleteUI (name : string)
  | getCurrentParent
  | addWidgetToMayaLayout (instance : nat)
  | show (instance : nat).

(** [ui_utils.create_dockable_widget] under Maya. [control_exists] is the
    answer of [cmds.workspaceControl(name, q=True, exists=True)]. *)
Definition create_dockable_widget (docking_object_name : string)
    (restore force_refresh control_exists : bool) (wh : WindowHandler)
    : WindowHandler * nat * list maya_call :=
  let workspace_control_name := docking_object_name +:+ "WorkspaceControl" in
  let '(wh, calls) :=
    if force_refresh then
      ({| instances := delete docking_object_name (instances wh);
          constructed := constructed wh |},
       if control_exists
       then [workspaceControl_close workspace_control_name; deleteUI workspace_control_name]
       else [])
    else (wh, []) in
  let calls := calls ++ (if restore then [getCurrentParent] else []) in
  let '(wh, widget_instance) :=
    match instances wh !! docking_object_name with
    | Some widget_instance => (wh, widget_instance)
    | None =>
        ({| instances := <[docking_object_name := constructed wh]> (instances wh);
            constructed := S (constructed wh) |},
         constructed wh)
    end in
  let calls :=
    calls ++ (if restore then [addWidgetToMayaLayout widget_instance]
              else [show widget_instance]) in
  (wh, widget_instance, calls).

(** Every widget the handler keeps was constructed before. *)
Definition known (wh : WindowHandler) : Prop :=
  ∀ name i, instances wh !! name = Some i → (i < constructed wh)%nat.

End Dock.

(** ** More example disks *)

Module MoreExamples.

(** Two scripts named [rig.py], in different folders of the script tree. *)
Definition disk_namesakes : node :=
  Examples.at_path Examples.stf
    (Dir {[ "Scripts" :=
              Dir {[ "rig.py" := Examples.rig_py;
                     "old" := Dir {[ "rig.py" := Examples.old_backup ]} ]} ]}).

Definition script_old : path := Examples.stf ++ ["Scripts"; "old"; "rig.py"].

(** The script tree with the snapshot taken in second 1700000000. *)
Definition disk_snapshot : node :=
  Examples.at_path Examples.stf
    (Dir {[ "Scripts" := Dir Examples.scripts;
            "ScriptTree_TreeBackup" :=
              Dir {[ "ScriptTree_BACKUP_1700000000" := Dir Examples.scripts ]} ]}).


(** The handler of a fresh session of Maya, and the handler after the
    window was shown for the first time. *)
Definition handler_fresh : Dock.WindowHandler :=
  {| Dock.instances := ∅; Dock.constructed := 0 |}.

Definition handler_shown : Dock.WindowHandler :=
  (Dock.create_dockable_widget "ScriptTreeWindow" false false false handler_fresh).1.1.

Definition widget_shown : nat :=
  (Dock.create_dockable_widget "ScriptTreeWindow" false false false handler_fresh).1.2.

End MoreExamples.

(** * Properties *)

Import Filter.

(** ** The filter *)

Lemma re_sub_non_ascii_filter (s : ustring) :
  re_sub_non_ascii s = filter (λ c, non_ascii c = false) s.
Proof.
  induction s as [|c r IH]; [done|].
  cbn [re_sub_non_ascii]. rewrite filter_cons.
  destruct (non_ascii c) eqn:E; case_decide; try done; by rewrite IH.
Qed.


Lemma re_sub_non_ascii_id (s : ustring) :
  Forall (λ c, non_ascii c = false) s → re_sub_non_ascii s = s.
Proof.
  induction 1 as [|c r Hc _ IH]; [done|].
  cbn [re_sub_non_ascii]. by rewrite Hc, IH.
Qed.

Lemma split_comma_nonempty (s : ustring) : split_comma s ≠ [].
Proof.
  induction s as [|c r IH]; [done|].
  cbn [split_comma]. destruct (c =? comma)%N; [done|].
  by destruct (split_comma r).
Qed.

Lemma join_split_comma (s : ustring) : join_comma (split_comma s) = s.
Proof.
  induction s as [|c r IH]; [done|].
  cbn [split_comma]. destruct (N.eqb_spec c comma) as [->|Hc].
  - pose proof (split_comma_nonempty r).
    cbn [join_comma]. destruct (split_comma r) eqn:E; [done|].
    by rewrite <- IH.
  - pose proof (split_comma_nonempty r).
    destruct (split_comma r) as [|piece pieces] eqn:E; [done|].
    rewrite <- IH. by destruct pieces.
Qed.

Lemma split_comma_no_comma (s : ustring) :
  Forall (λ piece, comma ∉ piece) (split_comma s).
Proof.
  induction s as [|c r IH].
  - repeat constructor. by intros ?%elem_of_nil.
  - cbn [split_comma]. destruct (N.eqb_spec c comma) as [->|Hc].
    + constructor; [by intros ?%elem_of_nil | done].
    + destruct (split_comma r) as [|piece pieces]; inversion IH; subst.
      * repeat constructor. intros ?%list_elem_of_singleton. congruence.
      * constructor; [|done]. intros [?|?]%elem_of_cons; [congruence|done].
Qed.

Lemma fmap_const_replicate {A B} (b : B) (l : list A) :
  (λ _, b) <$> l = replicate (length l) b.
Proof. induction l; [done|]. cbn. by f_equal. Qed.

Lemma Forall_fmap_const {A B} (b : B) (l : list A) :
  Forall (λ x, x = b) ((λ _, b) <$> l).
Proof. induction l; by constructor. Qed.

Lemma filter_results_nonempty (ui : ScriptTreeWidget) :
  re_sub_non_ascii (search_bar ui) ≠ [] →
  name_filters (filter_results ui) = build_filters (re_sub_non_ascii (search_bar ui))
  ∧ tree_view (filter_results ui) = (λ _, true) <$> tree_view ui.
Proof.
  intros Hne. unfold filter_results.
  by destruct (re_sub_non_ascii (search_bar ui)).
Qed.

Lemma filter_results_empty (ui : ScriptTreeWidget) :
  re_sub_non_ascii (search_bar ui) = [] →
  name_filters (filter_results ui) = default_filter
  ∧ tree_view (filter_results ui) = (λ _, false) <$> tree_view ui.
Proof. intros Hne. unfold filter_results. by rewrite Hne. Qed.

Lemma blank_split (s : ustring) :
  blank s →
  build_filters s
  = mjoin (replicate (S (length (filter (λ c, c = comma) s)))
             [cps "**.py"; cps "**.mel"]).
Proof.
  unfold build_filters.
  induction 1 as [|c r Hc Hr IH]; [done|].
  cbn [split_comma]. rewrite filter_cons.
  destruct Hc as [->| ->]; cbn -[cps replicate mjoin].
  - case_decide; [|done]. by rewrite IH.
  - case_decide; [done|].
    pose proof (split_comma_nonempty r) as Hn.
    destruct (split_comma r) as [|piece pieces]; [done|].
    rewrite <- IH. cbn -[cps]. unfold term_patterns, remove_spaces.
    by case_decide.
Qed.

Lemma blank_ascii (s : ustring) : blank s → Forall (λ c, non_ascii c = false) s.
Proof. intros Hs. eapply Forall_impl; [exact Hs|]. by intros c [->| ->]. Qed.


Lemma pattern_set_replicate (n : nat) (l : list ustring) :
  list_to_set (C := gset ustring) (mjoin (replicate (S n) l)) = list_to_set l.
Proof.
  induction n as [|n IH].
  - cbn. by rewrite app_nil_r.
  - rewrite replicate_S. change (mjoin (l :: ?r)) with (l ++ mjoin r).
    rewrite list_to_set_app_L, IH. apply (idemp_L (∪)).
Qed.

(** C1, as the code has it: a query that is not empty and holds nothing
    but commas and spaces gets the two patterns [**.py] and [**.mel], once
    for every piece between the commas, and the tree is expanded. The
    pattern set is never empty; it differs from the default set. *)
Theorem filter_results_blank (ui : ScriptTreeWidget) :
  search_bar ui ≠ [] →
  blank (search_bar ui) →
  name_filters (filter_results ui)
  = mjoin (replicate (S (length (filter (λ c, c = comma) (search_bar ui))))
             [cps "**.py"; cps "**.mel"])
  ∧ pattern_set (filter_results ui) = {[ cps "**.py"; cps "**.mel" ]}
  ∧ pattern_set (filter_results ui) ≠ ∅
  ∧ pattern_set (filter_results ui) ≠ list_to_set default_filter
  ∧ all_expanded (filter_results ui).
Proof.
  intros Hne Hb.
  pose proof (re_sub_non_ascii_id _ (blank_ascii _ Hb)) as Hid.
  destruct (filter_results_nonempty ui) as [Hf Ht]; [by rewrite Hid|].
  rewrite Hid in Hf. rewrite (blank_split _ Hb) in Hf.
  assert (pattern_set (filter_results ui) = {[ cps "**.py"; cps "**.mel" ]}) as Hset.
  { unfold pattern_set. rewrite Hf, pattern_set_replicate.
    cbn [list_to_set]. set_solver. }
  split_and!; [done|done| | |].
  - rewrite Hset. intros H. assert (cps "**.py" ∈ (∅ : gset ustring)) as Hin.
    { rewrite <- H. set_solver. }
    set_solver.
  - rewrite Hset. intros H.
    assert (cps "**.py" ∈ (list_to_set default_filter : gset ustring)) as Hin.
    { rewrite <- H. set_solver. }
    unfold default_filter in Hin. cbn [list_to_set] in Hin.
    apply elem_of_union in Hin as [Hin|Hin].
    + by apply elem_of_singleton in Hin.
    + apply elem_of_union in Hin as [Hin|Hin]; [by apply elem_of_singleton in Hin|set_solver].
  - unfold all_expanded. rewrite Ht. apply Forall_fmap_const.
Qed.

Lemma filter_results_blank_witness :
  name_filters (filter_results (typed (cps ",, ,") ui0))
  = mjoin (replicate 4 [cps "**.py"; cps "**.mel"])
  ∧ pattern_set (filter_results (typed (cps ",, ,") ui0)) = {[ cps "**.py"; cps "**.mel" ]}.
Proof.
  destruct (filter_results_blank (typed (cps ",, ,") ui0)) as (H1 & H2 & _).
  - done.
  - repeat constructor; vm_compute; tauto.
  - split; [exact H1|exact H2].
Defined.

(** C1, as it is worded, fails: the query [",, ,"] does not give an empty
    pattern set. *)
Lemma filter_results_commas_not_empty :
  ¬ (pattern_set (filter_results (typed (cps ",, ,") ui0)) = ∅
     ∧ all_expanded (filter_results (typed (cps ",, ,") ui0))).
Proof.
  intros [H _].
  assert (cps "**.py" ∈ pattern_set (filter_results (typed (cps ",, ,") ui0))) as Hin.
  { unfold pattern_set. apply elem_of_list_to_set. by left. }
  rewrite H in Hin. set_solver.
Qed.

(** C2, as the code has it: for a query whose normalization is not
    empty, the terms are the pieces of the normalized text between its
    commas; from each term the space characters (U+0020, and no other
    whitespace) are removed, and each gives its [.py] and its [.mel]
    pattern, in that order; the tree is expanded. The query ["foo, bar"]
    gives the four patterns of the specification. *)
Theorem filter_results_terms (ui : ScriptTreeWidget) :
  (re_sub_non_ascii (search_bar ui) ≠ [] →
   ∃ terms : list ustring,
     terms ≠ []
     ∧ join_comma terms = re_sub_non_ascii (search_bar ui)
     ∧ Forall (λ t, comma ∉ t) terms
     ∧ name_filters (filter_results ui)
       = terms ≫= (λ t, [cps "*" ++ filter (λ c, c ≠ space) t ++ cps "*.py";
                          cps "*" ++ filter (λ c, c ≠ space) t ++ cps "*.mel"])
     ∧ all_expanded (filter_results ui))
  ∧ name_filters (filter_results (typed (cps "foo, bar") ui))
    = [cps "*foo*.py"; cps "*foo*.mel"; cps "*bar*.py"; cps "*bar*.mel"]
  ∧ pattern_set (filter_results (typed (cps "foo, bar") ui))
    = {[ cps "*foo*.py"; cps "*foo*.mel"; cps "*bar*.py"; cps "*bar*.mel" ]}
  ∧ all_expanded (filter_results (typed (cps "foo, bar") ui)).
Proof.
  split_and!.
  - intros Hne. destruct (filter_results_nonempty ui Hne) as [Hf Ht].
    exists (split_comma (re_sub_non_ascii (search_bar ui))).
    split_and!.
    + apply split_comma_nonempty.
    + apply join_split_comma.
    + apply split_comma_no_comma.
    + exact Hf.
    + unfold all_expanded. rewrite Ht. apply Forall_fmap_const.
  - reflexivity.
  - unfold pattern_set.
    change (name_filters (filter_results (typed (cps "foo, bar") ui)))
      with [cps "*foo*.py"; cps "*foo*.mel"; cps "*bar*.py"; cps "*bar*.mel"].
    cbn [list_to_set]. by rewrite (right_id_L ∅ (∪)), !(assoc_L (∪)).
  - unfold all_expanded. cbn. apply Forall_fmap_const.
Qed.

Lemma filter_results_terms_witness :
  ∃ terms : list ustring,
    join_comma terms = cps "spam,eg gs"
    ∧ name_filters (filter_results (typed (cps "spam,eg gs") ui0))
      = terms ≫= (λ t, [cps "*" ++ filter (λ c, c ≠ space) t ++ cps "*.py";
                         cps "*" ++ filter (λ c, c ≠ space) t ++ cps "*.mel"]).
Proof.
  destruct (filter_results_terms (typed (cps "spam,eg gs") ui0)) as [H _].
  destruct H as (terms & _ & Hj & _ & Hf & _).
  - discriminate.
  - exists terms. split; [exact Hj|exact Hf].
Defined.

(** C2, as it is worded, fails: a tab is whitespace, and it stays in the
    term. *)
Lemma filter_results_keeps_tab :
  name_filters (filter_results (typed [97; tab; 98]%N ui0))
  ≠ patterns_without_whitespace (re_sub_non_ascii [97; tab; 98]%N).
Proof. discriminate. Qed.

(** C7: whether the rows are expanded or collapsed after the filter
    computation depends on nothing but whether the normalized query is
    empty; an empty one gives the default patterns [*.py] and [*.mel] and
    collapses every row, any other expands every row. *)
Theorem filter_results_expansion (ui : ScriptTreeWidget) :
  tree_view (filter_results ui)
  = replicate (length (tree_view ui))
      (bool_decide (re_sub_non_ascii (search_bar ui) ≠ []))
  ∧ if decide (re_sub_non_ascii (search_bar ui) = [])
    then name_filters (filter_results ui) = [cps "*.py"; cps "*.mel"]
         ∧ all_collapsed (filter_results ui)
    else all_expanded (filter_results ui).
Proof.
  case_decide as Hq.
  - destruct (filter_results_empty ui Hq) as [Hf Ht].
    rewrite Ht, Hq, fmap_const_replicate. split_and!; [done|done|].
    unfold all_collapsed. rewrite Ht. apply Forall_fmap_const.
  - destruct (filter_results_nonempty ui Hq) as [Hf Ht].
    rewrite Ht, fmap_const_replicate, bool_decide_eq_true_2 by done.
    split; [done|]. unfold all_expanded. rewrite Ht. apply Forall_fmap_const.
Qed.


(** A query with an accent and a symbol above U+007F. *)
Example filter_results_strip_example :
  name_filters (filter_results (typed [114; 233; 105; 103; 8364]%N ui0))
  = [cps "*rig*.py"; cps "*rig*.mel"].
Proof. reflexivity. Qed.

(** ** The double click *)

Import Panel.

Lemma setup_settings (w : ScriptTreeWindow) :
  settings (action_setup_double_click_connections w) = settings w.
Proof. unfold action_setup_double_click_connections. by case_decide. Qed.

Lemma setup_connects (w : ScriptTreeWindow) :
  doubleClicked (action_setup_double_click_connections w)
  = [if decide (value (settings w) k_double_click_action = Some run_script_on_click)
     then action_run_script
     else if decide (value (settings w) k_double_click_action = Some edit_script_on_click)
          then action_open_script
          else if decide (value (settings w) k_double_click_action = None)
               then action_open_script
               else action_run_script].
Proof.
  unfold action_setup_double_click_connections, value_or, value. cbn.
  destruct (settings w !! k_double_click_action) as [v|] eqn:E; cbn.
  - repeat case_decide; simplify_eq; done.
  - done.
Qed.

Lemma setup_connected (w : ScriptTreeWindow) :
  connected_as_stored (action_setup_double_click_connections w).
Proof.
  unfold connected_as_stored. rewrite !setup_connects. by rewrite setup_settings.
Qed.

Lemma step_connected (w : ScriptTreeWindow) (e : event) :
  connected_as_stored w → connected_as_stored (step w e).1.
Proof.
  destruct e as [c|]; [|done]. intros _. cbn. apply setup_connected.
Qed.

Lemma run_connected (es : list event) (w : ScriptTreeWindow) :
  connected_as_stored w → connected_as_stored (run w es).
Proof.
  revert w. induction es as [|e es IH]; intros w Hw; [done|].
  cbn. apply IH. by apply step_connected.
Qed.

Lemma step_select (w : ScriptTreeWindow) (c : choice) :
  value (settings (step w (MenuSelect c)).1) k_double_click_action
  = Some (choice_text c)
  ∧ double_click (step w (MenuSelect c)).1 = [choice_slot c].
Proof.
  unfold double_click. cbn [step fst snd]. unfold set_settings_value.
  rewrite setup_settings, setup_connects. cbn [settings].
  unfold value, setValue. rewrite lookup_insert_eq. by destruct c.
Qed.

(** C6: at every moment of a session (the window built on whatever the
    settings file holds, then any sequence of menu selections and double
    clicks) a double click invokes one slot, the one the stored preference
    stands for: the run action and not the open action when the run choice
    is stored, the open action and not the run action when the edit choice
    is stored or the key was never set. A selection in the menu is stored
    and redirects the very next double click. *)
Theorem double_click_dispatch (stored : QSettings) (es : list event) :
  let w := run (init stored) es in
  double_click w
  = [match value (settings w) k_double_click_action with
     | None => action_open_script
     | Some v => if decide (v = edit_script_on_click) then action_open_script
                 else action_run_script
     end]
  ∧ (if decide (value (settings w) k_double_click_action = Some run_script_on_click)
     then double_click w = [action_run_script] ∧ action_open_script ∉ double_click w
     else True)
  ∧ (if decide (value (settings w) k_double_click_action = Some edit_script_on_click)
     then double_click w = [action_open_script] ∧ action_run_script ∉ double_click w
     else True)
  ∧ (if decide (value (settings w) k_double_click_action = None)
     then double_click w = [action_open_script] ∧ action_run_script ∉ double_click w
     else True)
  ∧ (∀ c : choice,
       value (settings (step w (MenuSelect c)).1) k_double_click_action
       = Some (choice_text c)
       ∧ double_click (step w (MenuSelect c)).1 = [choice_slot c])
  ∧ (step w DoubleClick).1 = w.
Proof.
  intros w.
  assert (connected_as_stored w) as Hw.
  { apply run_connected. apply setup_connected. }
  unfold connected_as_stored in Hw. rewrite setup_connects in Hw.
  unfold double_click. cbn [step snd]. rewrite Hw. clear Hw.
  unfold value. split_and!.
  - destruct (settings w !! k_double_click_action) as [v|]; [|done].
    repeat case_decide; simplify_eq; done.
  - destruct (settings w !! k_double_click_action) as [v|]; [|done].
    repeat case_decide; simplify_eq; try done;
      (split; [done|by intros ?%list_elem_of_singleton]).
  - destruct (settings w !! k_double_click_action) as [v|];
      repeat case_decide; simplify_eq; try done;
      (split; [done|by intros ?%list_elem_of_singleton]).
  - destruct (settings w !! k_double_click_action) as [v|];
      repeat case_decide; simplify_eq; try done;
      (split; [done|by intros ?%list_elem_of_singleton]).
  - intros c. apply step_select.
  - done.
Qed.

(** The preference was never set: the first double click opens the
    script. *)
Example double_click_default : double_click (init ∅) = [action_open_script].
Proof. reflexivity. Qed.

(** Run is selected, then edit: the double clicks in between follow. *)
Example double_click_flips :
  double_click (run (init ∅) [MenuSelect RunOnDoubleClick; DoubleClick])
  = [action_run_script]
  ∧ double_click (run (init ∅) [MenuSelect RunOnDoubleClick; DoubleClick;
                                MenuSelect EditOnDoubleClick])
    = [action_open_script].
Proof. split; reflexivity. Qed.

Lemma radio_unset (stored : QSettings) :
  value stored k_double_click_action = None →
  radio_setting stored k_double_click_action
    [run_script_on_click; edit_script_on_click] run_script_on_click
  = [(run_script_on_click, true); (edit_script_on_click, false)].
Proof. intros E. unfold radio_setting. by rewrite E. Qed.

Lemma radio_chosen (stored : QSettings) (c : choice) :
  value stored k_double_click_action = Some (choice_text c) →
  radio_setting stored k_double_click_action
    [run_script_on_click; edit_script_on_click] run_script_on_click
  = [(run_script_on_click, bool_decide (c = RunOnDoubleClick));
     (edit_script_on_click, bool_decide (c = EditOnDoubleClick))].
Proof. intros E. unfold radio_setting. rewrite E. by destruct c. Qed.

(** C10: while the preference key has never been set, the radio group of
    the context menu shows the run choice checked and the edit choice
    unchecked, and a double click opens the script for editing; double
    clicks change nothing in that. Once the user selects a choice in the
    menu, the checked item and the double click agree on it. *)
Theorem unset_preference_menu_and_dispatch (stored : QSettings) :
  value stored k_double_click_action = None →
  let w := init stored in
  context_menu_radio w
  = [(run_script_on_click, true); (edit_script_on_click, false)]
  ∧ double_click w = [action_open_script]
  ∧ (∀ n, context_menu_radio (run w (replicate n DoubleClick)) = context_menu_radio w
          ∧ double_click (run w (replicate n DoubleClick)) = double_click w)
  ∧ (∀ c : choice,
       context_menu_radio (step w (MenuSelect c)).1
       = [(run_script_on_click, bool_decide (c = RunOnDoubleClick));
          (edit_script_on_click, bool_decide (c = EditOnDoubleClick))]
       ∧ double_click (step w (MenuSelect c)).1 = [choice_slot c]).
Proof.
  intros E w.
  assert (settings w = stored) as Hs by apply setup_settings.
  assert (∀ n, run w (replicate n DoubleClick) = w) as Hrun.
  { induction n as [|n IH]; [done|]. exact IH. }
  split_and!.
  - unfold context_menu_radio. rewrite Hs. by apply radio_unset.
  - unfold double_click, w, init. cbn [step snd]. rewrite setup_connects.
    cbn [settings]. rewrite E. done.
  - intros n. by rewrite Hrun.
  - intros c. destruct (step_select w c) as [Hv Hd]. split; [|exact Hd].
    unfold context_menu_radio. by apply radio_chosen.
Qed.

Lemma unset_preference_menu_and_dispatch_witness :
  context_menu_radio (init ∅)
  = [(run_script_on_click, true); (edit_script_on_click, false)]
  ∧ double_click (init ∅) = [action_open_script].
Proof.
  destruct (unset_preference_menu_and_dispatch ∅) as (H1 & H2 & _).
  - reflexivity.
  - split; [exact H1|exact H2].
Defined.

(** ** The disk *)

Section Disk.

Implicit Types (n m : node) (p q r : path) (c : string) (es : gmap string node).

Lemma stat_app n p q : stat n (p ++ q) = stat n p ≫= λ m, stat m q.
Proof.
  revert n. induction p as [|c p IH]; intros n; [done|].
  cbn. destruct n as [|es]; [done|].
  destruct (es !! c) as [n1|]; cbn; [apply IH|done].
Qed.

Lemma stat_empty_dir c q : stat (Dir ∅) (c :: q) = None.
Proof. cbn. by rewrite lookup_empty. Qed.

Lemma put_cons_cons es c c' p x :
  put (Dir es) (c :: c' :: p) x
  = n1 ← es !! c; n2 ← put n1 (c' :: p) x; Some (Dir (<[c := n2]> es)).
Proof. done. Qed.

Lemma prefix_snoc_inv q p c :
  q `prefix_of` p ++ [c] → q `prefix_of` p ∨ q = p ++ [c].
Proof.
  revert q. induction p as [|c' p IH]; intros q Hq.
  - destruct q as [|c1 q]; [left; apply prefix_nil|].
    pose proof (prefix_cons_inv_1 _ _ _ _ Hq) as ->.
    apply prefix_cons_inv_2, prefix_nil_inv in Hq as ->. by right.
  - destruct q as [|c1 q]; [left; apply prefix_nil|].
    cbn in Hq. pose proof (prefix_cons_inv_1 _ _ _ _ Hq) as ->.
    apply prefix_cons_inv_2, IH in Hq as [Hq| ->].
    + left. by apply prefix_cons.
    + by right.
Qed.

(** What was written at [p] is found there, with all that is below it. *)
Lemma put_stat_below n n' p r x :
  put n p x = Some n' → stat n' (p ++ r) = stat x r.
Proof.
  revert n n'. induction p as [|c p IH]; intros n n' Hput.
  - cbn in Hput. by simplify_eq.
  - destruct n as [|es]; [done|]. destruct p as [|c' p].
    + cbn in Hput. simplify_eq. cbn. by rewrite lookup_insert_eq.
    + rewrite put_cons_cons in Hput.
      destruct (es !! c) as [n1|]; cbn [mbind option_bind] in Hput; [|done].
      destruct (put n1 (c' :: p) x) as [n2|] eqn:E; cbn [mbind option_bind] in Hput; [|done]. simplify_eq.
      change (stat (Dir (<[c:=n2]> es)) ((c :: c' :: p) ++ r))
        with (<[c:=n2]> es !! c ≫= λ n', stat n' ((c' :: p) ++ r)).
      rewrite lookup_insert_eq. cbn [mbind option_bind]. by apply (IH n1).
Qed.

(** A path that neither leads to [p] nor lies below it is not touched. *)
Lemma put_stat_frame n n' p q x :
  put n p x = Some n' → ¬ p `prefix_of` q → ¬ q `prefix_of` p →
  stat n' q = stat n q.
Proof.
  revert n n' q. induction p as [|c p IH]; intros n n' q Hput Hpq Hqp.
  - destruct Hpq. apply prefix_nil.
  - destruct q as [|c1 q]; [destruct Hqp; apply prefix_nil|].
    destruct n as [|es]; [done|].
    destruct (decide (c1 = c)) as [->|Hc].
    + destruct p as [|c' p]; [destruct Hpq; apply prefix_cons, prefix_nil|].
      rewrite put_cons_cons in Hput.
      destruct (es !! c) as [n1|] eqn:Ec; cbn [mbind option_bind] in Hput; [|done].
      destruct (put n1 (c' :: p) x) as [n2|] eqn:E; cbn [mbind option_bind] in Hput; [|done]. simplify_eq. cbn [stat]. rewrite lookup_insert_eq, Ec. cbn.
      eapply IH; [done| |]; intros H; [apply Hpq|apply Hqp]; by apply prefix_cons.
    + assert (∃ y, n' = Dir (<[c := y]> es)) as [y ->].
      { destruct p as [|c' p]; [cbn in Hput; simplify_eq; eauto|].
        rewrite put_cons_cons in Hput.
        destruct (es !! c) as [n1|]; cbn [mbind option_bind] in Hput; [|done].
        destruct (put n1 (c' :: p) x) as [n2|]; cbn [mbind option_bind] in Hput; [|done]. simplify_eq. eauto. }
      cbn [stat]. by rewrite lookup_insert_ne.
Qed.

(** A new entry in a directory that is there. *)
Lemma put_child n q c x es :
  stat n q = Some (Dir es) →
  ∃ n', put n (q ++ [c]) x = Some n' ∧ stat n' q = Some (Dir (<[c := x]> es)).
Proof.
  revert n. induction q as [|c' q IH]; intros n Hq.
  - cbn in Hq. simplify_eq. by eexists.
  - destruct n as [|es']; [done|]. cbn in Hq.
    destruct (es' !! c') as [n1|] eqn:Ec; [|done]. cbn in Hq.
    destruct (IH _ Hq) as (n2 & Hput & Hst).
    exists (Dir (<[c' := n2]> es')). split.
    + change ((c' :: q) ++ [c]) with (c' :: (q ++ [c])).
      destruct (q ++ [c]) as [|c2 r] eqn:E; [by destruct q|].
      rewrite put_cons_cons, Ec. cbn [mbind option_bind]. by rewrite Hput.
    + cbn [stat]. by rewrite lookup_insert_eq.
Qed.

Lemma mkdirs_unfold es c p :
  mkdirs (Dir es) (c :: p)
  = n1 ← mkdirs (default (Dir ∅) (es !! c)) p; Some (Dir (<[c := n1]> es)).
Proof. done. Qed.

Lemma mkdirs_file data mtime p : mkdirs (File data mtime) p = None.
Proof. by destruct p. Qed.

(** [mkdirs] touches nothing but the way to [p]. *)
Lemma mkdirs_stat_frame n n' p q :
  mkdirs n p = Some n' → ¬ q `prefix_of` p → stat n' q = stat n q.
Proof.
  revert n n' q. induction p as [|c p IH]; intros n n' q Hmk Hqp.
  - destruct n; cbn in Hmk; by simplify_eq.
  - destruct n as [|es]; [done|]. rewrite mkdirs_unfold in Hmk.
    destruct (mkdirs (default (Dir ∅) (es !! c)) p) as [n1|] eqn:E; cbn [mbind option_bind] in Hmk; [|done]. simplify_eq.
    destruct q as [|c1 q]; [destruct Hqp; apply prefix_nil|].
    cbn [stat]. destruct (decide (c1 = c)) as [->|Hc].
    + rewrite lookup_insert_eq. cbn.
      assert (¬ q `prefix_of` p) as Hq by (intros H; apply Hqp; by apply prefix_cons).
      rewrite (IH _ _ _ E Hq).
      destruct (es !! c) as [n0|]; [done|]. cbn.
      destruct q as [|c2 q]; [destruct Hq; apply prefix_nil|].
      apply stat_empty_dir.
    + by rewrite lookup_insert_ne.
Qed.

Lemma mkdirs_stat_fresh n n' p :
  mkdirs n p = Some n' → stat n p = None → stat n' p = Some (Dir ∅).
Proof.
  revert n n'. induction p as [|c p IH]; intros n n' Hmk Hst; [done|].
  destruct n as [|es]; [done|]. rewrite mkdirs_unfold in Hmk.
  destruct (mkdirs (default (Dir ∅) (es !! c)) p) as [n1|] eqn:E; cbn [mbind option_bind] in Hmk; [|done]. simplify_eq. cbn [stat] in *. rewrite lookup_insert_eq. cbn.
  destruct (es !! c) as [n0|]; cbn in *; [by apply (IH n0)|].
  destruct p as [|c2 p]; [cbn in E; by simplify_eq|].
  apply (IH (Dir ∅)); [done|apply stat_empty_dir].
Qed.

Lemma mkdirs_stat_dir n n' p :
  mkdirs n p = Some n' → is_dir (stat n' p) = true.
Proof.
  revert n n'. induction p as [|c p IH]; intros n n' Hmk.
  - destruct n; cbn in Hmk; by simplify_eq.
  - destruct n as [|es]; [done|]. rewrite mkdirs_unfold in Hmk.
    destruct (mkdirs (default (Dir ∅) (es !! c)) p) as [n1|] eqn:E; cbn [mbind option_bind] in Hmk; [|done]. simplify_eq. cbn [stat]. rewrite lookup_insert_eq. cbn. by eapply IH.
Qed.

(** On a path that is there, [mkdirs] changes nothing. *)
Lemma mkdirs_existing n n' p :
  mkdirs n p = Some n' → is_Some (stat n p) → n' = n.
Proof.
  revert n n'. induction p as [|c p IH]; intros n n' Hmk Hst.
  - destruct n; cbn in Hmk; by simplify_eq.
  - destruct n as [|es]; [done|]. rewrite mkdirs_unfold in Hmk.
    cbn [stat] in Hst. destruct (es !! c) as [n0|] eqn:Ec; [|by destruct Hst].
    cbn in *. destruct (mkdirs n0 p) as [n1|] eqn:E; cbn [mbind option_bind] in Hmk; [|done]. simplify_eq. rewrite (IH _ _ E Hst). by rewrite insert_id.
Qed.

(** A directory made below one that is there. *)
Lemma mkdirs_child n q c es :
  stat n q = Some (Dir es) → es !! c = None →
  mkdirs n (q ++ [c]) = put n (q ++ [c]) (Dir ∅).
Proof.
  revert n. induction q as [|c' q IH]; intros n Hq Hc.
  - cbn in Hq. simplify_eq. cbn. by rewrite Hc.
  - destruct n as [|es']; [done|]. cbn in Hq.
    destruct (es' !! c') as [n1|] eqn:Ec; [|done]. cbn in Hq.
    change ((c' :: q) ++ [c]) with (c' :: (q ++ [c])).
    rewrite mkdirs_unfold, Ec. unfold default, id.
    rewrite (IH _ Hq Hc).
    destruct (q ++ [c]) as [|c2 r] eqn:E; [by destruct q|].
    by rewrite put_cons_cons, Ec.
Qed.

End Disk.

(** ** Names and time stamps *)

Lemma string_length_app (a b : string) :
  String.length (a +:+ b) = (String.length a + String.length b)%nat.
Proof.
  induction a as [|c a IH]; [done|].
  change (S (String.length (a +:+ b)) = S (String.length a + String.length b)).
  by rewrite IH.
Qed.

Lemma string_app_empty (s : string) : s +:+ "" = s.
Proof.
  induction s as [|c s IH]; [done|].
  change (String c (s +:+ "") = String c s). by rewrite IH.
Qed.

Lemma rsplit_dot_app (s a b : string) : rsplit_dot s = Some (a, b) → s = a +:+ b.
Proof.
  revert a b. induction s as [|c s IH]; intros a b H; [done|].
  cbn in H. destruct (rsplit_dot s) as [[a' b']|].
  - simplify_eq. change (String c s = String c (a' +:+ b)). f_equal. by apply IH.
  - destruct (Ascii.eqb c dot); by simplify_eq.
Qed.

(** [splitext] cuts the name in two. *)
Lemma splitext_app (name root ext : string) :
  splitext name = (root, ext) → name = root +:+ ext.
Proof.
  unfold splitext. destruct (rsplit_dot name) as [[a b]|] eqn:E.
  - destruct (all_dots a); intros; simplify_eq.
    + by rewrite string_app_empty.
    + by apply rsplit_dot_app.
  - intros; simplify_eq. by rewrite string_app_empty.
Qed.

Example splitext_examples :
  splitext "rig_tools.py" = ("rig_tools", ".py")
  ∧ splitext "archive.tar.gz" = ("archive.tar", ".gz")
  ∧ splitext ".bashrc" = (".bashrc", "")
  ∧ splitext "README" = ("README", "")
  ∧ splitext "..py" = ("..py", "").
Proof. repeat split. Qed.

Lemma basename_join (p : path) (name : string) : basename (join p name) = name.
Proof. unfold basename, join. by rewrite last_snoc. Qed.

Lemma dirname_join (p : path) (name : string) : dirname (join p name) = p.
Proof. apply removelast_last. Qed.

(** The backup never has the name of the script it is taken from. *)
Lemma backup_file_name_differs (script_path : path) (unique_time : string) :
  Backup.backup_file_name script_path unique_time ≠ basename script_path.
Proof.
  unfold Backup.backup_file_name.
  destruct (splitext (basename script_path)) as [root ext] eqn:E.
  apply splitext_app in E. rewrite E at 1. intros H.
  apply (f_equal String.length) in H.
  rewrite !string_length_app in H. cbn in H. lia.
Qed.

Lemma backup_file_path_differs (stf script_path : path) (unique_time : string) :
  script_path ≠ Backup.backup_file_path stf script_path unique_time.
Proof.
  intros H. apply (f_equal basename) in H.
  unfold Backup.backup_file_path in H. rewrite basename_join in H.
  by eapply backup_file_name_differs.
Qed.

Lemma to_int_proper (z : Z) :
  Z.to_int z ≠ Decimal.Pos Decimal.Nil ∧ Z.to_int z ≠ Decimal.Neg Decimal.Nil.
Proof.
  destruct z as [|p|p]; cbn; split; try discriminate;
    intros H; injection H; apply DecimalPos.Unsigned.to_uint_nonnil.
Qed.

(** Two integers with the same numeral are the same. *)
Lemma str_of_int_inj (z1 z2 : Z) : str_of_int z1 = str_of_int z2 → z1 = z2.
Proof.
  unfold str_of_int. intros H.
  apply (f_equal NilZero.int_of_string) in H.
  destruct (to_int_proper z1) as [? ?], (to_int_proper z2) as [? ?].
  rewrite !NilZero.isi in H by done.
  injection H as H. apply (f_equal Z.of_int) in H.
  by rewrite !DecimalZ.of_to in H.
Qed.

Example str_of_int_examples :
  str_of_int 1700000000 = "1700000000" ∧ str_of_int 0 = "0" ∧ str_of_int (-7) = "-7".
Proof. repeat split. Qed.

Lemma int_of_float_floor (t : Q) : (0 <= t)%Q → int_of_float t = Qfloor t.
Proof.
  intros Ht. unfold int_of_float. destruct t as [a b]. cbn.
  apply Z.quot_div_nonneg; [|done].
  unfold Qle in Ht. cbn in Ht. lia.
Qed.

(** More than a second later the clock shows another second. *)
Lemma int_of_float_later (t1 t2 : Q) :
  (0 <= t1)%Q → (t1 + 1 < t2)%Q → int_of_float t1 < int_of_float t2.
Proof.
  intros H0 Hlt.
  assert (0 <= t2)%Q as H2.
  { apply Qlt_le_weak. eapply Qle_lt_trans; [|exact Hlt].
    rewrite <- (Qplus_0_r 0). apply Qplus_le_compat; [done|discriminate]. }
  rewrite !int_of_float_floor by done.
  apply Z.lt_nge. intros Hle.
  pose proof (Qlt_floor t2) as Hf2. pose proof (Qfloor_le t1) as Hf1.
  assert (inject_Z (Qfloor t2 + 1) <= inject_Z (Qfloor t1 + 1))%Q as Hi.
  { rewrite <- Zle_Qle. lia. }
  rewrite (inject_Z_plus (Qfloor t1) 1) in Hi.
  assert (inject_Z (Qfloor t1) + inject_Z 1 <= t1 + 1)%Q as Hj.
  { apply Qplus_le_compat; [done|]. apply Qle_refl. }
  eapply Qlt_irrefl. eapply Qlt_le_trans; [exact Hf2|].
  eapply Qle_trans; [exact Hi|]. eapply Qle_trans; [exact Hj|].
  by apply Qlt_le_weak.
Qed.

Lemma backup_directory_path_inj (stf : path) (t1 t2 : Q) :
  (0 <= t1)%Q → (t1 + 1 < t2)%Q →
  apart (Backup.backup_directory_path stf (str_of_int (int_of_float t1)))
        (Backup.backup_directory_path stf (str_of_int (int_of_float t2))).
Proof.
  intros H0 Hlt. pose proof (int_of_float_later _ _ H0 Hlt) as Hne.
  assert (∀ a b : Z, a ≠ b →
    ¬ Backup.backup_directory_path stf (str_of_int a)
      `prefix_of` Backup.backup_directory_path stf (str_of_int b)) as Hp.
  { intros a b Hab Hpre. unfold Backup.backup_directory_path, join in Hpre.
    apply prefix_app_inv in Hpre.
    pose proof (prefix_cons_inv_1 _ _ _ _ Hpre) as Heq.
    apply (inj (String.append _)) in Heq. by apply str_of_int_inj in Heq. }
  split; apply Hp; lia.
Qed.

(** ** Regular files under [mkdirs] and [put] *)

Lemma mkdirs_on_way n n' q r :
  mkdirs n (q ++ r) = Some n' →
  is_dir (stat n' q) = true ∧ is_file (stat n q) = false.
Proof.
  revert n n'. induction q as [|c q IH]; intros n n' Hmk.
  - destruct n as [|es]; [by rewrite mkdirs_file in Hmk|].
    split; [|done]. destruct r as [|c r]; cbn in Hmk; [by simplify_eq|].
    destruct (mkdirs _ r); cbn in Hmk; by simplify_eq.
  - destruct n as [|es]; [done|].
    change ((c :: q) ++ r) with (c :: (q ++ r)) in Hmk.
    rewrite mkdirs_unfold in Hmk.
    destruct (mkdirs (default (Dir ∅) (es !! c)) (q ++ r)) as [n1|] eqn:E;
      cbn [mbind option_bind] in Hmk; [|done].
    simplify_eq. destruct (IH _ _ E) as [Hd Hf].
    cbn [stat]. rewrite lookup_insert_eq. cbn [mbind option_bind]. split; [done|].
    destruct (es !! c) as [n0|]; [exact Hf|done].
Qed.

Lemma file_at_mkdirs n n' p q :
  mkdirs n p = Some n' → file_at n' q = file_at n q.
Proof.
  intros Hmk. unfold file_at.
  destruct (decide (q `prefix_of` p)) as [[r ->]|Hq].
  - destruct (mkdirs_on_way _ _ _ _ Hmk) as [Hd Hf].
    destruct (stat n' q) as [[]|]; [done| |done].
    by destruct (stat n q) as [[]|].
  - by rewrite (mkdirs_stat_frame _ _ _ _ Hmk Hq).
Qed.

Lemma put_cons_longer es c p x :
  p ≠ [] →
  put (Dir es) (c :: p) x
  = n1 ← es !! c; n2 ← put n1 p x; Some (Dir (<[c := n2]> es)).
Proof. by destruct p. Qed.

Lemma put_on_way n n' q c r x :
  put n (q ++ c :: r) x = Some n' →
  is_dir (stat n' q) = true ∧ is_dir (stat n q) = true.
Proof.
  revert n n'. induction q as [|c' q IH]; intros n n' Hput.
  - destruct n as [|es]; [done|]. split; [|done].
    destruct r as [|c2 r]; [cbn in Hput; by simplify_eq|].
    change ([] ++ c :: c2 :: r) with (c :: c2 :: r) in Hput.
    rewrite put_cons_cons in Hput.
    destruct (es !! c) as [n1|]; cbn [mbind option_bind] in Hput; [|done].
    destruct (put n1 (c2 :: r) x); cbn [mbind option_bind] in Hput; by simplify_eq.
  - destruct n as [|es]; [done|].
    change ((c' :: q) ++ c :: r) with (c' :: (q ++ c :: r)) in Hput.
    rewrite put_cons_longer in Hput by (by destruct q).
    destruct (es !! c') as [n1|] eqn:Ec; cbn [mbind option_bind] in Hput; [|done].
    destruct (put n1 (q ++ c :: r) x) as [n2|] eqn:E2;
      cbn [mbind option_bind] in Hput; [|done].
    simplify_eq. destruct (IH _ _ E2) as [H1 H2].
    cbn [stat]. rewrite lookup_insert_eq, Ec. by cbn [mbind option_bind].
Qed.

(** A file written where no directory is: the one regular file that is
    new or changed is the one at [p]. *)
Lemma file_at_put n n' p q data mtime :
  put n p (File data mtime) = Some n' →
  is_dir (stat n p) = false →
  file_at n' q = if decide (q = p) then Some (data, mtime) else file_at n q.
Proof.
  intros Hput Hnd. unfold file_at. case_decide as Hqp.
  - subst q. pose proof (put_stat_below _ _ _ [] _ Hput) as H.
    rewrite app_nil_r in H. by rewrite H.
  - destruct (decide (p `prefix_of` q)) as [[r ->]|Hpq].
    + destruct r as [|c r]; [by rewrite app_nil_r in Hqp|].
      rewrite (put_stat_below _ _ _ _ _ Hput), stat_app. cbn.
      by destruct (stat n p) as [[]|].
    + destruct (decide (q `prefix_of` p)) as [[r ->]|Hqp'].
      * destruct r as [|c r]; [by rewrite app_nil_r in Hqp|].
        destruct (put_on_way _ _ _ _ _ _ Hput) as [H1 H2].
        destruct (stat n' q) as [[]|]; [done| |done].
        by destruct (stat n q) as [[]|].
      * by rewrite (put_stat_frame _ _ _ _ _ Hput Hpq Hqp').
Qed.

(** ** Running the library calls on a machine without faults *)

Lemma bind_return {A B} (m : M A) (k : A → M B) w a w' :
  m w = (Return a, w') → (m ≫= k) w = k a w'.
Proof. intros H. unfold mbind, M_bind. by rewrite H. Qed.

Lemma bind_raise {A B} (m : M A) (k : A → M B) w e w' :
  m w = (Raise e, w') → (m ≫= k) w = (Raise e, w').
Proof. intros H. unfold mbind, M_bind. by rewrite H. Qed.

Lemma ret_run {A} (a : A) w : (mret a : M A) w = (Return a, w).
Proof. done. Qed.

Lemma time_time_run w : time_time w = (Return (clock w), w).
Proof. done. Qed.

Lemma path_exists_run p w :
  path_exists p w = (Return (bool_decide (is_Some (stat (disk w) p))), w).
Proof. done. Qed.

Lemma path_isdir_run p w :
  path_isdir p w = (Return (is_dir (stat (disk w) p)), w).
Proof. done. Qed.

Lemma check_fault_none c w : fault w = no_fault → check_fault c w = (Return (), w).
Proof. intros H. unfold check_fault. by rewrite H. Qed.

Lemma makedirs_run p w d' :
  fault w = no_fault → stat (disk w) p = None → mkdirs (disk w) p = Some d' →
  makedirs p w = (Return (), set_disk d' w).
Proof.
  intros Hf Hst Hmk. unfold makedirs.
  rewrite (bind_return _ _ _ _ _ (check_fault_none _ _ Hf)).
  unfold mbind, M_bind, get_disk. by rewrite Hst, Hmk.
Qed.

Lemma copy2_run src q c w data mtime es :
  fault w = no_fault →
  stat (disk w) src = Some (File data mtime) →
  stat (disk w) q = Some (Dir es) →
  is_dir (stat (disk w) (join q c)) = false →
  src ≠ join q c →
  ∃ d', copy2 src (join q c) w = (Return (), set_disk d' w)
        ∧ put (disk w) (join q c) (File data mtime) = Some d'
        ∧ stat d' q = Some (Dir (<[c := File data mtime]> es)).
Proof.
  intros Hf Hsrc Hq Hnd Hne.
  destruct (put_child _ _ c (File data mtime) _ Hq) as (d' & Hput & Hst).
  change (q ++ [c]) with (join q c) in Hput.
  exists d'. split_and!; [|done|done].
  unfold copy2. rewrite (bind_return _ _ _ _ _ (check_fault_none _ _ Hf)).
  unfold mbind at 1, M_bind, get_disk. rewrite Hnd, Hsrc.
  rewrite decide_False by done.
  destruct (stat (disk w) (join q c)) as [[]|] eqn:E; try done;
    by rewrite dirname_join, Hq, Hput.
Qed.

Lemma copytree_run src q c w es' es :
  fault w = no_fault →
  stat (disk w) src = Some (Dir es') →
  stat (disk w) q = Some (Dir es) →
  es !! c = None →
  ¬ src `prefix_of` join q c →
  ∃ d', copytree src (join q c) w = (Return (), set_disk d' w)
        ∧ stat d' q = Some (Dir (<[c := Dir es']> es))
        ∧ ∀ r, apart (join q c) r → stat d' r = stat (disk w) r.
Proof.
  intros Hf Hsrc Hq Hc Hpre.
  assert (stat (disk w) (join q c) = None) as Hnone.
  { unfold join. rewrite stat_app, Hq. cbn. by rewrite Hc. }
  destruct (put_child _ _ c (Dir ∅) _ Hq) as (d1 & Hput1 & Hst1).
  pose proof (mkdirs_child _ _ c _ Hq Hc) as Hmk. rewrite Hput1 in Hmk.
  destruct (put_child _ _ c (Dir es') _ Hst1) as (d2 & Hput2 & Hst2).
  rewrite insert_insert_eq in Hst2.
  exists d2. split_and!; [|done|].
  - change (q ++ [c]) with (join q c) in Hmk, Hput2.
    unfold copytree, mbind at 1, M_bind, get_disk. rewrite Hsrc, Hnone, Hmk.
    unfold mbind, M_bind, write_disk, check_fault. cbn [fault set_disk disk].
    rewrite Hf. unfold no_fault. rewrite decide_False by done.
    by rewrite Hput2.
  - intros r [H1 H2].
    rewrite (put_stat_frame _ _ _ _ _ Hput2 H1 H2).
    by rewrite (put_stat_frame _ _ _ _ _ Hput1 H1 H2).
Qed.

Lemma listdir_run p w es :
  fault w = no_fault → stat (disk w) p = Some (Dir es) →
  listdir p w = (Return (map_to_list es).*1, w).
Proof.
  intros Hf Hst. unfold listdir.
  rewrite (bind_return _ _ _ _ _ (check_fault_none _ _ Hf)).
  unfold mbind, M_bind, get_disk. by rewrite Hst.
Qed.

(** ** The backup of a script *)

Import Backup.

Lemma backup_script_absent (stf script_path : path) (w : world) :
  stat (disk w) script_path = None →
  backup_script stf script_path w = (Return (), w).
Proof.
  intros Hst. unfold backup_script.
  rewrite (bind_return _ _ _ _ _ (path_exists_run _ _)), Hst.
  rewrite bool_decide_eq_false_2; [done|]. by intros [? ?].
Qed.

Lemma backup_script_present (stf script_path : path) (w : world) :
  is_Some (stat (disk w) script_path) →
  backup_script stf script_path w
  = try_except (backup_script_body stf script_path) (λ e, logging_error e) w.
Proof.
  intros Hst. unfold backup_script.
  rewrite (bind_return _ _ _ _ _ (path_exists_run _ _)).
  by rewrite bool_decide_eq_true_2.
Qed.

(** What the guarded statements do when nothing fails: the backup folder
    is there afterwards, and the copy is the one file written. *)
Lemma backup_script_body_writes (stf script_path : path) (w : world) data mtime :
  fault w = no_fault →
  stat (disk w) script_path = Some (File data mtime) →
  is_Some (mkdirs (disk w) (get_backup_folder_for_script stf script_path)) →
  is_dir (stat (disk w)
            (backup_file_path stf script_path (str_of_int (int_of_float (clock w)))))
  = false →
  ∃ d', backup_script_body stf script_path w = (Return (), set_disk d' w)
    ∧ ∀ q, file_at d' q
           = if decide (q = backup_file_path stf script_path
                               (str_of_int (int_of_float (clock w))))
             then Some (data, mtime) else file_at (disk w) q.
Proof.
  intros Hf Hsrc [d1 Hmk] Hnd.
  set (folder := get_backup_folder_for_script stf script_path) in *.
  set (name := backup_file_name script_path (str_of_int (int_of_float (clock w)))).
  assert (backup_file_path stf script_path (str_of_int (int_of_float (clock w)))
          = join folder name) as Hdest by done.
  rewrite Hdest in *.
  pose proof (mkdirs_stat_dir _ _ _ Hmk) as Hdir.
  destruct (stat d1 folder) as [[|es]|] eqn:Efolder; try done. clear Hdir.
  assert (stat d1 script_path = Some (File data mtime)) as Hsrc1.
  { pose proof (file_at_mkdirs _ _ _ script_path Hmk) as H.
    unfold file_at in H. rewrite Hsrc in H.
    by destruct (stat d1 script_path) as [[]|]; simplify_eq. }
  assert (is_dir (stat d1 (join folder name)) = false) as Hnd1.
  { rewrite (mkdirs_stat_frame _ _ _ _ Hmk); [done|]. apply prefix_snoc_not. }
  assert (script_path ≠ join folder name) as Hne.
  { rewrite <- Hdest. apply backup_file_path_differs. }
  assert (∀ w1, fault w1 = no_fault → disk w1 = d1 → set_disk d1 w = set_disk d1 w1 →
     ∃ d', copy2 script_path (join folder name) w1 = (Return (), set_disk d' w)
       ∧ ∀ q, file_at d' q = if decide (q = join folder name)
                              then Some (data, mtime) else file_at (disk w) q) as Hcopy.
  { intros w1 Hf1 Hd1 Hw1.
    destruct (copy2_run script_path folder name w1 data mtime es) as (d' & Hrun & Hput & _);
      try (rewrite ?Hd1; done).
    exists d'. split.
    - rewrite Hrun. f_equal.
      change (set_disk d' w1) with (set_disk d' (set_disk d1 w1)).
      by rewrite <- Hw1.
    - intros q. rewrite Hd1 in Hput.
      rewrite (file_at_put _ _ _ q _ _ Hput Hnd1).
      case_decide; [done|]. by apply file_at_mkdirs with folder. }
  unfold backup_script_body.
  rewrite (bind_return _ _ _ _ _ (time_time_run _)).
  cbv zeta. rewrite Hdest, dirname_join.
  rewrite (bind_return _ _ _ _ _ (path_exists_run _ _)).
  destruct (stat (disk w) folder) as [x|] eqn:Ex.
  - rewrite bool_decide_eq_true_2 by done. cbn [negb].
    assert (d1 = disk w) as -> by (eapply mkdirs_existing; [done|by rewrite Ex]).
    rewrite (bind_return _ _ _ _ _ (ret_run _ _)).
    apply Hcopy; [done|done|done].
  - rewrite bool_decide_eq_false_2 by (by intros [? ?]). cbn [negb].
    rewrite (bind_return _ _ _ _ _ (makedirs_run _ _ _ Hf Ex Hmk)).
    apply Hcopy; done.
Qed.

Lemma file_at_stat d q data mtime :
  file_at d q = Some (data, mtime) ↔ stat d q = Some (File data mtime).
Proof.
  unfold file_at. destruct (stat d q) as [[]|]; split; intros; by simplify_eq.
Qed.

(** C3, as the code has it: when nothing is at the path, [backup_script]
    returns at once and the machine is as it was. When a regular file is
    there and no call fails, the call returns normally and writes one
    file, [<script_backup_folder>/<stem>/<stem>_BACKUP_<seconds><ext>],
    with the content and the modification time of the script; every other
    regular file, the script among them, is as before, and nothing is
    logged. The file is a new one when nothing had that name; a backup of
    the same second is overwritten. *)
Theorem backup_script_one_file (stf script_path : path) (w : world) :
  (stat (disk w) script_path = None →
   backup_script stf script_path w = (Return (), w))
  ∧ ∀ data mtime,
      fault w = no_fault →
      stat (disk w) script_path = Some (File data mtime) →
      is_Some (mkdirs (disk w) (get_backup_folder_for_script stf script_path)) →
      let seconds := str_of_int (int_of_float (clock w)) in
      let dest := backup_file_path stf script_path seconds in
      is_dir (stat (disk w) dest) = false →
      dest = script_backup_folder stf
             ++ [(splitext (basename script_path)).1;
                 (splitext (basename script_path)).1 +:+ "_BACKUP_" +:+ seconds
                 +:+ (splitext (basename script_path)).2]
      ∧ ∃ d', backup_script stf script_path w = (Return (), set_disk d' w)
          ∧ (∀ q, file_at d' q
                  = if decide (q = dest) then Some (data, mtime) else file_at (disk w) q)
          ∧ stat d' script_path = Some (File data mtime)
          ∧ (stat (disk w) dest = None →
             ∀ q, file_at (disk w) q = None ∧ is_Some (file_at d' q) ↔ q = dest).
Proof.
  split; [apply backup_script_absent|].
  intros data mtime Hf Hsrc Hmk seconds dest Hnd. split.
  { unfold dest, backup_file_path, get_backup_folder_for_script, backup_file_name, join.
    destruct (splitext (basename script_path)) as [stem ext]. by rewrite <- app_assoc. }
  destruct (backup_script_body_writes stf script_path w data mtime Hf Hsrc Hmk Hnd)
    as (d' & Hrun & Hfiles).
  exists d'. split_and!.
  - rewrite backup_script_present by (by rewrite Hsrc).
    unfold try_except. by rewrite Hrun.
  - exact Hfiles.
  - apply file_at_stat. rewrite Hfiles.
    rewrite decide_False by apply backup_file_path_differs.
    by apply file_at_stat.
  - intros Hnone q. rewrite Hfiles. case_decide as Hq.
    + subst q. split; [done|]. intros _. split; [|done].
      unfold file_at. fold seconds. fold dest. by rewrite Hnone.
    + split; [|done]. intros [-> [? ?]]. done.
Qed.

Lemma backup_script_one_file_witness :
  ∃ d', backup_script Examples.stf Examples.script
          (Examples.machine Examples.disk_fresh Examples.now)
        = (Return (), set_disk d' (Examples.machine Examples.disk_fresh Examples.now))
      ∧ file_at d' (Examples.stf ++ ["ScriptTree_ScriptBackup"; "rig";
                                     "rig_BACKUP_1700000000.py"])
        = Some ("import pymel.core as pm", 1699990000).
Proof.
  destruct (backup_script_one_file Examples.stf Examples.script
              (Examples.machine Examples.disk_fresh Examples.now)) as [_ H].
  destruct (H "import pymel.core as pm" 1699990000) as (_ & d' & Hrun & Hfiles & _).
  - reflexivity.
  - reflexivity.
  - vm_compute. eauto.
  - reflexivity.
  - exists d'. split; [exact Hrun|]. rewrite Hfiles. reflexivity.
Defined.

(** C3, as it is worded, fails: a script saved twice within one second.
    The second call finds the backup of that second in place and writes
    over it; no file is new. *)
Lemma backup_script_same_second :
  let w := Examples.machine Examples.disk_saved Examples.now in
  let dest := Examples.stf ++ ["ScriptTree_ScriptBackup"; "rig"; "rig_BACKUP_1700000000.py"] in
  is_Some (file_at (disk w) Examples.script)
  ∧ file_at (disk w) dest = Some ("import maya.cmds as mc", 1699980000)
  ∧ ∃ d', backup_script Examples.stf Examples.script w = (Return (), set_disk d' w)
      ∧ file_at d' dest = Some ("import pymel.core as pm", 1699990000)
      ∧ ¬ ∃ q, file_at (disk w) q = None ∧ is_Some (file_at d' q).
Proof.
  intros w dest. split; [by eexists|]. split; [reflexivity|].
  destruct (backup_script_body_writes Examples.stf Examples.script w
              "import pymel.core as pm" 1699990000) as (d' & Hrun & Hfiles).
  - reflexivity.
  - reflexivity.
  - vm_compute. eauto.
  - reflexivity.
  - exists d'. split_and!.
    + rewrite backup_script_present by (by eexists).
      unfold try_except. by rewrite Hrun.
    + rewrite Hfiles. reflexivity.
    + intros (q & Hq & Hq'). rewrite Hfiles in Hq'. case_decide as E.
      * subst q. discriminate Hq.
      * rewrite Hq in Hq'. by destruct Hq'.
Qed.

(** ** The backup of the tree *)

Lemma apart_sym p q : apart p q → apart q p.
Proof. intros [? ?]. by split. Qed.

Lemma apart_join p q c : apart p q → apart (join p c) q.
Proof.
  intros [Hpq Hqp]. split.
  - intros H. apply Hpq. by apply prefix_app_l in H.
  - intros [H| ->]%prefix_snoc_inv; [done|]. apply Hpq. by apply prefix_app_r.
Qed.

Lemma apart_join_both p q c : apart p q → ¬ join p c `prefix_of` join q c.
Proof.
  intros [Hpq Hqp] H. apply prefix_app_l in H.
  apply prefix_snoc_inv in H as [H| ->]; [done|].
  apply Hqp. by apply prefix_app_r.
Qed.

Lemma stat_child d q c es : stat d q = Some (Dir es) → stat d (join q c) = es !! c.
Proof.
  intros H. unfold join. rewrite stat_app, H. cbn. by destruct (es !! c).
Qed.

Lemma stat_parent d q c x :
  stat d (join q c) = Some x → ∃ es, stat d q = Some (Dir es) ∧ es !! c = Some x.
Proof.
  unfold join. rewrite stat_app. destruct (stat d q) as [[|es]|]; cbn; try done.
  destruct (es !! c) eqn:E; cbn; [|done]. intros; simplify_eq. eauto.
Qed.

(** The loop of [copy_directory]: the entries still to do are copied one
    by one into [dst], and nothing apart from [dst] changes. *)
Lemma for_each_copy_item (src dst : path) (es : gmap string node) :
  apart src dst →
  ∀ (todo : list string) (w : world) (copied : gmap string node),
    fault w = no_fault →
    NoDup todo →
    (∀ k, k ∈ todo → is_Some (es !! k)) →
    stat (disk w) src = Some (Dir es) →
    stat (disk w) dst = Some (Dir copied) →
    (∀ k, copied !! k = if decide (k ∈ todo) then None else es !! k) →
    ∃ d', for_each todo (copy_item src dst) w = (Return (), set_disk d' w)
        ∧ stat d' dst = Some (Dir es)
        ∧ ∀ r, apart dst r → stat d' r = stat (disk w) r.
Proof.
  intros Hap todo. induction todo as [|item rest IH];
    intros w copied Hf Hnd Hin Hsrc Hdst Hcopied.
  - exists (disk w). split_and!; [by destruct w| |done].
    rewrite Hdst. do 2 f_equal. apply map_eq. intros k.
    rewrite Hcopied. rewrite decide_False; [done|]. by intros ?%elem_of_nil.
  - apply NoDup_cons in Hnd as [Hitem Hnd].
    destruct (Hin item) as [x Hx]; [by left|].
    assert (copied !! item = None) as Hfree.
    { rewrite Hcopied. rewrite decide_True; [done|by left]. }
    assert (∃ d1, copy_item src dst item w = (Return (), set_disk d1 w)
              ∧ stat d1 dst = Some (Dir (<[item := x]> copied))
              ∧ ∀ r, apart (join dst item) r → stat d1 r = stat (disk w) r)
      as (d1 & Hrun & Hdst1 & Hframe).
    { unfold copy_item. cbv zeta.
      rewrite (bind_return _ _ _ _ _ (path_isdir_run _ _)).
      rewrite (stat_child _ _ item _ Hsrc), Hx.
      destruct x as [data mtime|es']; cbn [is_dir].
      - destruct (copy2_run (join src item) dst item w data mtime copied)
          as (d1 & Hrun & Hput & Hst); try done.
        + by rewrite (stat_child _ _ item _ Hsrc).
        + by rewrite (stat_child _ _ item _ Hdst), Hfree.
        + intros H. apply (apart_join_both _ _ item Hap). by rewrite H.
        + exists d1. split_and!; [done|done|].
          intros r [H1 H2]. by apply (put_stat_frame _ _ _ _ _ Hput).
      - destruct (copytree_run (join src item) dst item w es' copied)
          as (d1 & Hrun & Hst & Hframe); try done.
        + by rewrite (stat_child _ _ item _ Hsrc).
        + by apply apart_join_both.
        + by exists d1. }
    destruct (IH (set_disk d1 w) (<[item := x]> copied)) as (d' & Hrun' & Hdst' & Hframe');
      try done.
    + intros k Hk. apply Hin. by right.
    + cbn [disk set_disk]. rewrite Hframe; [done|].
      apply apart_join. by apply apart_sym.
    + intros k. destruct (decide (k = item)) as [->|Hk].
      * rewrite lookup_insert_eq. by rewrite decide_False.
      * rewrite lookup_insert_ne by done. rewrite Hcopied.
        destruct (decide (k ∈ rest)) as [Hr|Hr].
        -- rewrite decide_True; [done|by right].
        -- rewrite decide_False; [done|]. by intros [?|?]%elem_of_cons.
    + exists d'. split_and!; [|done|].
      * cbn [for_each]. rewrite (bind_return _ _ _ _ _ Hrun). exact Hrun'.
      * intros r Hr. rewrite (Hframe' r Hr). cbn [disk set_disk].
        apply Hframe. by apply apart_join.
Qed.

Lemma copy_directory_run (src dst : path) (w : world) (es : gmap string node) :
  fault w = no_fault →
  stat (disk w) src = Some (Dir es) →
  stat (disk w) dst = None →
  is_Some (mkdirs (disk w) dst) →
  ¬ src `prefix_of` dst →
  ∃ d', copy_directory src dst w = (Return (), set_disk d' w)
      ∧ stat d' dst = Some (Dir es)
      ∧ ∀ r, apart dst r → stat d' r = stat (disk w) r.
Proof.
  intros Hf Hsrc Hdst [d1 Hmk] Hpre.
  assert (apart src dst) as Hap.
  { split; [done|]. intros [r ->]. rewrite stat_app, Hdst in Hsrc. done. }
  pose proof (mkdirs_stat_fresh _ _ _ Hmk Hdst) as Hdst1.
  assert (stat d1 src = Some (Dir es)) as Hsrc1.
  { by rewrite (mkdirs_stat_frame _ _ _ _ Hmk). }
  destruct (for_each_copy_item src dst es Hap (map_to_list es).*1 (set_disk d1 w) ∅)
    as (d' & Hrun & Hdst' & Hframe); try done.
  - apply NoDup_fst_map_to_list.
  - intros k [[k' x] [-> Hk]]%list_elem_of_fmap. exists x. by apply elem_of_map_to_list.
  - intros k. rewrite lookup_empty. case_decide as Hk; [done|].
    destruct (es !! k) as [x|] eqn:E; [|done]. destruct Hk.
    apply list_elem_of_fmap. exists (k, x). split; [done|]. by apply elem_of_map_to_list.
  - exists d'. split_and!; [|done|].
    + unfold copy_directory.
      rewrite (bind_return _ _ _ _ _ (path_exists_run _ _)), Hdst.
      rewrite bool_decide_eq_false_2 by (by intros [? ?]). cbn [negb].
      rewrite (bind_return _ _ _ _ _ (makedirs_run _ _ _ Hf Hdst Hmk)).
      rewrite (bind_return _ _ _ _ _ (listdir_run src (set_disk d1 w) es Hf Hsrc1)).
      exact Hrun.
    + intros r Hr. rewrite (Hframe r Hr). cbn [disk set_disk].
      apply (mkdirs_stat_frame _ _ _ _ Hmk). by destruct Hr.
Qed.

Lemma backup_tree_run (stf script_folder : path) (w : world) (es : gmap string node) :
  fault w = no_fault →
  stat (disk w) script_folder = Some (Dir es) →
  ¬ script_folder `prefix_of` tree_backup_folder stf →
  stat (disk w) (backup_directory_path stf (str_of_int (int_of_float (clock w)))) = None →
  is_Some (mkdirs (disk w)
             (backup_directory_path stf (str_of_int (int_of_float (clock w))))) →
  ∃ d', backup_tree stf script_folder w
        = (Return (),
           add_record
             {| record_logger := root; record_level := INFO;
                record_msg := "ScriptTree Network Folder Saved: "
                  +:+ render (backup_directory_path stf
                                (str_of_int (int_of_float (clock w)))) |}
             (set_disk d' w))
      ∧ stat d' (backup_directory_path stf (str_of_int (int_of_float (clock w))))
        = Some (Dir es)
      ∧ ∀ r, apart (backup_directory_path stf (str_of_int (int_of_float (clock w)))) r →
             stat d' r = stat (disk w) r.
Proof.
  intros Hf Hsrc Hpre Hdst Hmk.
  destruct (copy_directory_run script_folder _ w es Hf Hsrc Hdst Hmk)
    as (d' & Hrun & Hdst' & Hframe).
  { unfold backup_directory_path. intros [H| H]%prefix_snoc_inv; [done|].
    unfold backup_directory_path, join in Hdst. rewrite <- H in Hdst.
    by rewrite Hsrc in Hdst. }
  exists d'. split_and!; [|done|done].
  unfold backup_tree. rewrite (bind_return _ _ _ _ _ (time_time_run _)). cbv zeta.
  by rewrite (bind_return _ _ _ _ _ Hrun).
Qed.

(** C5, as the code has it. The destination is
    [<tree_backup_folder>/ScriptTree_BACKUP_<seconds>]. When the folder to
    save is a directory that does not hold the tree-backup folder, nothing
    is at the destination yet, and no call fails, [backup_tree] returns
    normally; below the destination there is then, path by path, what is
    below the folder, so the two hold the same files; the folder is as
    before, and so is everything that is not on the way to the destination
    or below it. A second call more than a second later, the clock not
    before the epoch, goes to a destination apart from the first, and
    leaves the first snapshot whole. *)
Theorem backup_tree_snapshot (stf script_folder : path) (w : world)
    (es : gmap string node) :
  fault w = no_fault →
  stat (disk w) script_folder = Some (Dir es) →
  ¬ script_folder `prefix_of` tree_backup_folder stf →
  let dst := backup_directory_path stf (str_of_int (int_of_float (clock w))) in
  stat (disk w) dst = None →
  is_Some (mkdirs (disk w) dst) →
  dst = tree_backup_folder stf
        ++ ["ScriptTree_BACKUP_" +:+ str_of_int (int_of_float (clock w))]
  ∧ ∃ w', backup_tree stf script_folder w = (Return (), w')
      ∧ (∀ r, stat (disk w') (dst ++ r) = stat (disk w) (script_folder ++ r))
      ∧ (∀ r, file_at (disk w') (dst ++ r) = file_at (disk w) (script_folder ++ r))
      ∧ stat (disk w') script_folder = stat (disk w) script_folder
      ∧ (∀ r, apart dst r → stat (disk w') r = stat (disk w) r)
      ∧ ∀ t2 : Q,
          (0 <= clock w)%Q → (clock w + 1 < t2)%Q →
          let dst2 := backup_directory_path stf (str_of_int (int_of_float t2)) in
          stat (disk w) dst2 = None →
          apart dst dst2
          ∧ ∃ w'', backup_tree stf script_folder (set_clock t2 w') = (Return (), w'')
              ∧ (∀ r, stat (disk w'') (dst2 ++ r) = stat (disk w) (script_folder ++ r))
              ∧ (∀ r, stat (disk w'') (dst ++ r) = stat (disk w) (script_folder ++ r))
              ∧ stat (disk w'') script_folder = stat (disk w) script_folder.
Proof.
  intros Hf Hsrc Hpre dst Hdst Hmk. split; [done|].
  destruct (backup_tree_run stf script_folder w es Hf Hsrc Hpre Hdst Hmk)
    as (d' & Hrun & Hdst' & Hframe).
  fold dst in Hrun, Hdst', Hframe.
  assert (apart dst script_folder) as Hap.
  { split.
    - intros [r ->]. rewrite stat_app, Hdst in Hsrc. done.
    - unfold dst, backup_directory_path. intros [H|H]%prefix_snoc_inv; [done|].
      unfold dst, backup_directory_path, join in Hdst. rewrite <- H in Hdst.
      by rewrite Hsrc in Hdst. }
  eexists. split; [exact Hrun|]. cbn [disk add_record set_disk].
  assert (∀ r, stat d' (dst ++ r) = stat (disk w) (script_folder ++ r)) as Hsame.
  { intros r. by rewrite !stat_app, Hdst', Hsrc. }
  split_and!; [done| |by apply Hframe|done|].
  { intros r. unfold file_at. by rewrite Hsame. }
  intros t2 H0 Hlater Hdst2.
  set (dst2 := backup_directory_path stf (str_of_int (int_of_float t2))) in *.
  pose proof (backup_directory_path_inj stf _ _ H0 Hlater) as Hap2.
  fold dst dst2 in Hap2. split; [done|].
  set (w1 := set_clock t2 (add_record _ (set_disk d' w))).
  assert (stat d' script_folder = Some (Dir es)) as Hsrc1.
  { by rewrite Hframe. }
  assert (stat d' dst2 = None) as Hdst21.
  { by rewrite Hframe. }
  assert (is_Some (mkdirs d' dst2)) as Hmk1.
  { destruct (stat_parent d' (tree_backup_folder stf) _ _ Hdst') as (e & He & _).
    unfold dst2, backup_directory_path, join.
    rewrite (mkdirs_child _ _ _ _ He).
    - destruct (put_child _ _ ("ScriptTree_BACKUP_" +:+ str_of_int (int_of_float t2))
                  (Dir ∅) _ He) as (? & -> & _). done.
    - unfold dst2, backup_directory_path in Hdst21.
      by rewrite (stat_child _ _ _ _ He) in Hdst21. }
  destruct (backup_tree_run stf script_folder w1 es Hf Hsrc1 Hpre Hdst21 Hmk1)
    as (d'' & Hrun2 & Hdst2' & Hframe2).
  change (clock w1) with t2 in Hrun2, Hdst2', Hframe2.
  fold dst2 in Hrun2, Hdst2', Hframe2.
  eexists. split; [exact Hrun2|]. cbn [disk add_record set_disk].
  assert (apart dst2 script_folder) as Hap3.
  { split.
    - intros [r ->]. rewrite stat_app, Hdst21 in Hsrc1. done.
    - unfold dst2, backup_directory_path. intros [H|H]%prefix_snoc_inv; [done|].
      unfold dst2, backup_directory_path, join in Hdst21. rewrite <- H in Hdst21.
      by rewrite Hsrc1 in Hdst21. }
  split_and!.
  - intros r. by rewrite !stat_app, Hdst2', Hsrc.
  - intros r. rewrite !stat_app, (Hframe2 dst); [|by apply apart_sym].
    cbn. by rewrite Hdst', Hsrc.
  - rewrite Hframe2 by done. cbn. by apply Hframe.
Qed.

Lemma backup_tree_snapshot_witness :
  ∃ w', backup_tree Examples.stf Examples.script_folder
          (Examples.machine Examples.disk_fresh Examples.now) = (Return (), w')
      ∧ file_at (disk w')
          (Examples.stf ++ ["ScriptTree_TreeBackup"; "ScriptTree_BACKUP_1700000000";
                            "utils"; "names.mel"])
        = Some ("proc names() {}", 1690000000)
      ∧ ∃ w'', backup_tree Examples.stf Examples.script_folder
                 (set_clock Examples.later w') = (Return (), w'')
          ∧ file_at (disk w'')
              (Examples.stf ++ ["ScriptTree_TreeBackup"; "ScriptTree_BACKUP_1700000002";
                                "rig.py"])
            = Some ("import pymel.core as pm", 1699990000)
          ∧ file_at (disk w'')
              (Examples.stf ++ ["ScriptTree_TreeBackup"; "ScriptTree_BACKUP_1700000000";
                                "rig.py"])
            = Some ("import pymel.core as pm", 1699990000).
Proof.
  destruct (backup_tree_snapshot Examples.stf Examples.script_folder
              (Examples.machine Examples.disk_fresh Examples.now) Examples.scripts)
    as (_ & w' & Hrun & Hsame & Hfiles & _ & _ & Hsecond).
  - reflexivity.
  - reflexivity.
  - vm_compute. intros [k Hk]. discriminate Hk.
  - reflexivity.
  - vm_compute. eauto.
  - exists w'. split; [exact Hrun|]. split.
    + etrans; [exact (Hfiles ["utils"; "names.mel"])|reflexivity].
    + destruct (Hsecond Examples.later) as (_ & w'' & Hrun2 & Hsame2 & Hfirst & _).
      * vm_compute. discriminate.
      * reflexivity.
      * reflexivity.
      * exists w''. split; [exact Hrun2|]. unfold file_at. split.
        -- replace (stat (disk w'') _) with (stat Examples.disk_fresh Examples.script);
             [reflexivity|symmetry; exact (Hsame2 ["rig.py"])].
        -- replace (stat (disk w'') _) with (stat Examples.disk_fresh Examples.script);
             [reflexivity|symmetry; exact (Hfirst ["rig.py"])].
Defined.

(** C5, as it is worded, fails: the folder to save is [ScriptTree/Maya]
    itself, which holds the tree-backup folder. The destination is made
    inside the folder, so the folder is not as it was; the copy of the
    tree-backup folder into itself fails, and the error leaves
    [backup_tree]. *)
Lemma backup_tree_into_itself :
  let w := Examples.machine Examples.disk_fresh Examples.now in
  is_dir (stat (disk w) Examples.stf) = true
  ∧ stat (disk w) (Examples.stf ++ ["ScriptTree_TreeBackup"]) = None
  ∧ (backup_tree Examples.stf Examples.stf w).1 = Raise (OSError "File name too long")
  ∧ is_dir (stat (disk (backup_tree Examples.stf Examples.stf w).2)
              (Examples.stf ++ ["ScriptTree_TreeBackup"])) = true
  ∧ stat (disk (backup_tree Examples.stf Examples.stf w).2) Examples.stf
    ≠ stat (disk w) Examples.stf.
Proof.
  intros w. split_and!; try (vm_compute; reflexivity).
  intros H.
  assert (stat (disk (backup_tree Examples.stf Examples.stf w).2)
            (Examples.stf ++ ["ScriptTree_TreeBackup"])
          = stat (disk w) (Examples.stf ++ ["ScriptTree_TreeBackup"])) as H'.
  { by rewrite !stat_app, H. }
  vm_compute in H'. discriminate H'.
Qed.

(** ** Failures and the log *)

Lemma backup_script_returns (stf script_path : path) (w : world) :
  ∃ w', backup_script stf script_path w = (Return (), w').
Proof.
  destruct (stat (disk w) script_path) as [x|] eqn:E.
  - rewrite backup_script_present by (by rewrite E). unfold try_except.
    destruct (backup_script_body stf script_path w) as [[[]|e] w1]; by eexists.
  - rewrite backup_script_absent by done. by eexists.
Qed.

(** C4: [backup_script] never raises. Whatever exception the guarded
    statements raise, and from whatever machine, it is caught and logged as
    an error, the call returns normally, and [action_save_tab] goes on to
    save the tab. [backup_tree] guards nothing: an exception of
    [copy_directory] leaves [backup_tree], and [action_backup_tree],
    unchanged, with the machine as the failure left it. *)
Theorem backup_failures (stf : path) (w : world) :
  (∀ script_path, ∃ w', backup_script stf script_path w = (Return (), w'))
  ∧ (∀ script_path e w1,
       is_Some (stat (disk w) script_path) →
       backup_script_body stf script_path w = (Raise e, w1) →
       backup_script stf script_path w
       = (Return (),
          add_record {| record_logger := root; record_level := ERROR;
                        record_msg := str_of_exn e |} w1))
  ∧ (∀ script_path,
       ∃ w', action_save_tab stf false (Some script_path) None w = (Return (), w')
             ∧ last (host w') = Some (saveFile script_path))
  ∧ (∀ script_folder e w1,
       copy_directory script_folder
         (backup_directory_path stf (str_of_int (int_of_float (clock w)))) w
       = (Raise e, w1) →
       backup_tree stf script_folder w = (Raise e, w1)
       ∧ action_backup_tree stf true script_folder w = (Raise e, w1)).
Proof.
  split_and!.
  - intros script_path. apply backup_script_returns.
  - intros script_path e w1 Hthere Hbody.
    rewrite backup_script_present by done. unfold try_except. by rewrite Hbody.
  - intros script_path. destruct (backup_script_returns stf script_path w) as [w1 Hw1].
    eexists. split.
    + unfold action_save_tab. cbn [orb negb].
      rewrite bool_decide_eq_true_2 by done. cbn [negb].
      rewrite (bind_return _ _ _ _ _ Hw1). reflexivity.
    + cbn. apply last_snoc.
  - intros script_folder e w1 Hcopy.
    assert (backup_tree stf script_folder w = (Raise e, w1)) as Htree.
    { unfold backup_tree. rewrite (bind_return _ _ _ _ _ (time_time_run _)). cbv zeta.
      by rewrite (bind_raise _ _ _ _ _ Hcopy). }
    by split.
Qed.

Lemma backup_failures_witness :
  let w := Examples.read_only Examples.disk_fresh Examples.now in
  (backup_script Examples.stf Examples.script w).1 = Return ()
  ∧ records (backup_script Examples.stf Examples.script w).2
    = [{| record_logger := root; record_level := ERROR;
          record_msg := "Permission denied: /home/artist/Documents/ScriptTree/Maya"
            +:+ "/ScriptTree_ScriptBackup/rig/rig_BACKUP_1700000000.py" |}]
  ∧ (backup_tree Examples.stf Examples.script_folder w).1
    = Raise (PermissionError
               (Examples.stf ++ ["ScriptTree_TreeBackup"; "ScriptTree_BACKUP_1700000000";
                                 "utils"])).
Proof.
  intros w. destruct (backup_failures Examples.stf w) as (_ & Hcaught & _ & Htree).
  pose proof (Hcaught Examples.script
    (PermissionError (Examples.stf ++ ["ScriptTree_ScriptBackup"; "rig";
                                       "rig_BACKUP_1700000000.py"]))
    (backup_script_body Examples.stf Examples.script w).2) as H1.
  rewrite H1; [| by eexists | vm_compute; reflexivity].
  destruct (Htree Examples.script_folder
    (PermissionError (Examples.stf ++ ["ScriptTree_TreeBackup";
                                       "ScriptTree_BACKUP_1700000000"; "utils"]))
    (copy_directory Examples.script_folder
       (backup_directory_path Examples.stf (str_of_int (int_of_float (clock w)))) w).2)
    as [H2 _]; [vm_compute; reflexivity|].
  rewrite H2. split_and!; [reflexivity|vm_compute; reflexivity|reflexivity].
Defined.

(** C9 does not hold of the code: [script_tree_utils] calls
    [logging.error] and [logging.info], the functions of the module, and
    so logs through the root logger, which propagates, and not through the
    logger of the package as [save_selected_tab] does. A tree backup that
    succeeds and a script backup that fails both show it. *)
Theorem backups_log_through_root :
  let w := Examples.machine Examples.disk_fresh Examples.now in
  let ro := Examples.read_only Examples.disk_fresh Examples.now in
  (backup_tree Examples.stf Examples.script_folder w).1 = Return ()
  ∧ records (backup_tree Examples.stf Examples.script_folder w).2
    = [{| record_logger := root; record_level := INFO;
          record_msg := "ScriptTree Network Folder Saved: "
            +:+ "/home/artist/Documents/ScriptTree/Maya"
            +:+ "/ScriptTree_TreeBackup/ScriptTree_BACKUP_1700000000" |}]
  ∧ record_logger <$> records (backup_script Examples.stf Examples.script ro).2 = [root]
  ∧ record_logger <$> records (save_selected_tab Examples.script w).2 = [log]
  ∧ root ≠ log
  ∧ propagate root = true
  ∧ propagate log = false.
Proof. intros w ro. split_and!; try (vm_compute; reflexivity). discriminate. Qed.

(** * More of the code *)

(** ** Toggling comments *)

Import Comments.

Lemma split_lines_nonempty (s : ustring) : split_lines s ≠ [].
Proof.
  induction s as [|c r IH]; [done|].
  cbn [split_lines]. destruct (c =? newline)%N; [done|].
  by destruct (split_lines r).
Qed.

Lemma join_split_lines (s : ustring) : join_lines (split_lines s) = s.
Proof.
  induction s as [|c r IH]; [done|].
  pose proof (split_lines_nonempty r) as Hne.
  cbn [split_lines]. destruct (N.eqb_spec c newline) as [->|Hc].
  - cbn [join_lines]. destruct (split_lines r) eqn:E; [done|]. by rewrite <- IH.
  - destruct (split_lines r) as [|line lines] eqn:E; [done|].
    rewrite <- IH. by destruct lines.
Qed.

Lemma split_lines_no_newline (s : ustring) :
  Forall (λ line, newline ∉ line) (split_lines s).
Proof.
  induction s as [|c r IH].
  - repeat constructor. by intros ?%elem_of_nil.
  - cbn [split_lines]. destruct (N.eqb_spec c newline) as [->|Hc].
    + constructor; [by intros ?%elem_of_nil | done].
    + destruct (split_lines r) as [|line lines]; inversion IH; subst.
      * repeat constructor. intros ?%list_elem_of_singleton. congruence.
      * constructor; [|done]. intros [?|?]%elem_of_cons; [congruence|done].
Qed.

Lemma split_lines_one (l : ustring) : newline ∉ l → split_lines l = [l].
Proof.
  induction l as [|c l IH]; intros Hl; [done|].
  cbn [split_lines]. destruct (N.eqb_spec c newline) as [->|Hc].
  - destruct Hl. by left.
  - rewrite IH; [done|]. intros H. apply Hl. by right.
Qed.

Lemma split_lines_app (l r : ustring) :
  newline ∉ l → split_lines (l ++ newline :: r) = l :: split_lines r.
Proof.
  induction l as [|c l IH]; intros Hl.
  - cbn. done.
  - change ((c :: l) ++ newline :: r) with (c :: (l ++ newline :: r)).
    cbn [split_lines]. destruct (N.eqb_spec c newline) as [->|Hc].
    + destruct Hl. by left.
    + rewrite IH; [done|]. intros H. apply Hl. by right.
Qed.

Lemma split_join_lines (lines : list ustring) :
  lines ≠ [] → Forall (λ line, newline ∉ line) lines →
  split_lines (join_lines lines) = lines.
Proof.
  induction lines as [|l lines IH]; intros Hne Hall; [done|].
  apply Forall_cons in Hall as [Hl Hall].
  destruct lines as [|l' lines].
  - cbn. by apply split_lines_one.
  - change (join_lines (l :: l' :: lines)) with (l ++ newline :: join_lines (l' :: lines)).
    rewrite split_lines_app by done. f_equal. by apply IH.
Qed.

Lemma remove_hash_space_cons2 (c c' : N) (r : ustring) :
  remove_hash_space (c :: c' :: r)
  = if (c =? hash)%N && (c' =? space)%N then remove_hash_space r
    else c :: remove_hash_space (c' :: r).
Proof. done. Qed.

(** No occurrence of ["# "] reaches across a line break. *)
Lemma remove_hash_space_app (l r : ustring) :
  remove_hash_space (l ++ newline :: r)
  = remove_hash_space l ++ newline :: remove_hash_space r.
Proof.
  assert (∀ r, remove_hash_space (newline :: r) = newline :: remove_hash_space r) as Hnl.
  { intros [|c r']; done. }
  enough (remove_hash_space (l ++ newline :: r)
          = remove_hash_space l ++ newline :: remove_hash_space r
          ∧ ∀ c, remove_hash_space ((c :: l) ++ newline :: r)
                 = remove_hash_space (c :: l) ++ newline :: remove_hash_space r)
    as [H _] by exact H.
  induction l as [|c' l [IH1 IH2]].
  - split; [apply Hnl|]. intros c.
    change (([c] ++ newline :: r)) with (c :: newline :: r).
    rewrite remove_hash_space_cons2.
    replace (newline =? space)%N with false by done.
    rewrite andb_false_r. by rewrite Hnl.
  - split; [apply IH2|]. intros c.
    change ((c :: c' :: l) ++ newline :: r) with (c :: c' :: (l ++ newline :: r)).
    rewrite !remove_hash_space_cons2.
    destruct ((c =? hash)%N && (c' =? space)%N); [exact IH1|].
    change (c' :: l ++ newline :: r) with ((c' :: l) ++ newline :: r).
    by rewrite IH2.
Qed.

Lemma remove_hash_space_join (lines : list ustring) :
  remove_hash_space (join_lines lines) = join_lines (remove_hash_space <$> lines).
Proof.
  induction lines as [|l lines IH]; [done|].
  destruct lines as [|l' lines]; [done|].
  change (join_lines (l :: l' :: lines)) with (l ++ newline :: join_lines (l' :: lines)).
  rewrite remove_hash_space_app, IH. done.
Qed.


Lemma toggle_uncomments (t : ustring) :
  hash ∈ default [] (head (split_lines t)) →
  toggle_comment_selected_lines t = remove_hash_space t.
Proof.
  intros Hfirst. unfold toggle_comment_selected_lines.
  rewrite bool_decide_eq_true_2 by done. cbn [negb].
  by rewrite <- remove_hash_space_join, join_split_lines.
Qed.

Lemma toggle_comments (t : ustring) :
  hash ∉ default [] (head (split_lines t)) →
  split_lines (toggle_comment_selected_lines t)
  = (λ line, cps "# " ++ line) <$> split_lines t.
Proof.
  intros Hfirst. unfold toggle_comment_selected_lines.
  rewrite bool_decide_eq_false_2 by done. cbn [negb].
  apply split_join_lines.
  - pose proof (split_lines_nonempty t). by destruct (split_lines t).
  - apply Forall_fmap. eapply Forall_impl; [apply split_lines_no_newline|].
    intros line Hline [H|H]%elem_of_app; [|done].
    vm_compute in H. apply elem_of_cons in H as [H|H]; [done|].
    apply elem_of_cons in H as [H|H]; [done|]. by apply elem_of_nil in H.
Qed.

(** X1: when the first selected line holds no [#], every line of the
    selection gets ["# "] in front; the number of lines stays. Nothing
    selected gives ["# "]. *)
Theorem toggle_comment_adds (selected_text : ustring) :
  hash ∉ default [] (head (split_lines selected_text)) →
  split_lines (toggle_comment_selected_lines selected_text)
  = (λ line, cps "# " ++ line) <$> split_lines selected_text
  ∧ length (split_lines (toggle_comment_selected_lines selected_text))
    = length (split_lines selected_text)
  ∧ toggle_comment_selected_lines [] = cps "# ".
Proof.
  intros Hfirst. rewrite toggle_comments by done.
  split_and!; [done|by rewrite length_fmap|done].
Qed.

Lemma toggle_comment_adds_witness :
  toggle_comment_selected_lines (cps "import os" ++ newline :: cps "print(os.sep)")
  = cps "# import os" ++ newline :: cps "# print(os.sep)".
Proof.
  destruct (toggle_comment_adds (cps "import os" ++ newline :: cps "print(os.sep)"))
    as (H & _ & _).
  - vm_compute. intros H. repeat (apply elem_of_cons in H as [H|H]; [discriminate H|]).
    by apply elem_of_nil in H.
  - rewrite <- (join_split_lines (toggle_comment_selected_lines _)), H. reflexivity.
Defined.

(** X2: when the first selected line holds a [#] anywhere, the selection
    is replaced by itself with every occurrence of ["# "] taken out, on
    every line and also in the middle of a line. *)
Theorem toggle_comment_removes (selected_text : ustring) :
  hash ∈ default [] (head (split_lines selected_text)) →
  toggle_comment_selected_lines selected_text = remove_hash_space selected_text.
Proof. apply toggle_uncomments. Qed.

Lemma toggle_comment_removes_witness :
  toggle_comment_selected_lines (cps "# x = 1 # one" ++ newline :: cps "y = 2 # two")
  = cps "x = 1 one" ++ newline :: cps "y = 2 two".
Proof.
  rewrite (toggle_comment_removes (cps "# x = 1 # one" ++ newline :: cps "y = 2 # two")).
  - reflexivity.
  - vm_compute. by left.
Defined.



(** ** The filter once more *)

Lemma typed_typed (q q' : ustring) (ui : ScriptTreeWidget) :
  typed q (typed q' ui) = typed q ui.
Proof. done. Qed.

Lemma filter_results_typed (ui : ScriptTreeWidget) :
  typed (search_bar ui) (filter_results ui) = filter_results ui.
Proof. unfold filter_results. by destruct (re_sub_non_ascii (search_bar ui)). Qed.

(** X4: running [filter_results] again on its own outcome changes
    nothing. *)
Theorem filter_results_idemp (ui : ScriptTreeWidget) :
  filter_results (filter_results ui) = filter_results ui.
Proof.
  unfold filter_results.
  destruct (re_sub_non_ascii (search_bar ui)) as [|c r] eqn:E; cbn; rewrite E; cbn.
  - unfold collapseAll, setNameFilters. cbn. f_equal.
    rewrite <- list_fmap_compose. done.
  - unfold expandAll, setNameFilters. cbn. f_equal.
    rewrite <- list_fmap_compose. done.
Qed.

Lemma split_comma_elem (s piece : ustring) (c : N) :
  piece ∈ split_comma s → c ∈ piece → c ∈ s.
Proof.
  revert piece. induction s as [|c' r IH]; intros piece Hp Hc.
  - apply list_elem_of_singleton in Hp as ->. done.
  - cbn [split_comma] in Hp. destruct (c' =? comma)%N.
    + apply elem_of_cons in Hp as [->|Hp]; [by apply elem_of_nil in Hc|].
      right. by eapply IH.
    + pose proof (split_comma_nonempty r) as Hne.
      destruct (split_comma r) as [|p ps]; [done|].
      apply elem_of_cons in Hp as [->|Hp].
      * apply elem_of_cons in Hc as [->|Hc]; [by left|].
        right. apply (IH p); [by left|done].
      * right. apply (IH piece); [by right|done].
Qed.

Lemma re_sub_non_ascii_ascii (s : ustring) :
  Forall (λ c, (c <= 127)%N) (re_sub_non_ascii s).
Proof.
  induction s as [|c r IH]; [constructor|].
  cbn [re_sub_non_ascii]. unfold non_ascii.
  destruct (N.ltb_spec 127 c); [done|]. by constructor.
Qed.

Lemma length_build_filters (s : ustring) :
  length (build_filters s) = (2 * S (length (filter (λ c, c = comma) s)))%nat.
Proof.
  unfold build_filters. induction s as [|c r IH]; [done|].
  cbn [split_comma]. rewrite filter_cons.
  destruct (N.eqb_spec c comma) as [->|Hc].
  - rewrite decide_True by done. cbn [length].
    rewrite bind_cons, length_app, IH. cbn [term_patterns length]. lia.
  - rewrite decide_False by done.
    pose proof (split_comma_nonempty r) as Hne.
    destruct (split_comma r) as [|p ps]; [done|].
    rewrite <- IH. by rewrite !bind_cons, !length_app.
Qed.

Lemma literal_clean (lit : ustring) :
  Forall (λ c, c ≠ comma ∧ c ≠ space ∧ (c <= 127)%N) lit →
  (comma ∉ lit) ∧ (space ∉ lit) ∧ Forall (λ c, (c <= 127)%N) lit.
Proof.
  intros Hl. rewrite Forall_forall in Hl. split_and!.
  - intros H. by apply Hl in H as (? & _).
  - intros H. by apply Hl in H as (_ & ? & _).
  - apply Forall_forall. intros c Hc. by apply Hl in Hc as (_ & _ & ?).
Qed.

(** X5: whatever is typed, no name filter holds a comma, a space or a
    character above U+007F; and there are two filters for every piece of
    the normalized text between its commas (two for the empty text). *)
Theorem name_filters_clean (ui : ScriptTreeWidget) :
  Forall (λ pattern, (comma ∉ pattern) ∧ (space ∉ pattern)
                     ∧ Forall (λ c, (c <= 127)%N) pattern)
    (name_filters (filter_results ui))
  ∧ length (name_filters (filter_results ui))
    = (2 * S (length (filter (λ c, c = comma) (re_sub_non_ascii (search_bar ui)))))%nat.
Proof.
  destruct (decide (re_sub_non_ascii (search_bar ui) = [])) as [E|E].
  - destruct (filter_results_empty ui E) as [-> _]. rewrite E. split; [|done].
    unfold default_filter. repeat apply Forall_cons_2; [| |constructor];
      apply literal_clean; repeat constructor; done.
  - destruct (filter_results_nonempty ui E) as [-> _]. split; [|apply length_build_filters].
    unfold build_filters. apply Forall_forall. intros pattern Hp.
    apply list_elem_of_bind in Hp as (piece & Hpiece & Hp).
    pose proof (re_sub_non_ascii_ascii (search_bar ui)) as Hascii.
    rewrite Forall_forall in Hascii.
    assert (Forall (λ c, c ≠ comma ∧ c ≠ space ∧ (c <= 127)%N) (remove_spaces piece))
      as Hin.
    { apply Forall_forall. intros c [Hc1 Hc2]%list_elem_of_filter. split_and!; [|done|].
      - intros ->. pose proof (split_comma_no_comma (re_sub_non_ascii (search_bar ui))) as Hno.
        rewrite Forall_forall in Hno. by apply (Hno piece).
      - apply Hascii. by eapply split_comma_elem. }
    unfold term_patterns in Hpiece.
    apply elem_of_cons in Hpiece as [->|Hpiece];
      [|apply list_elem_of_singleton in Hpiece as ->];
      apply literal_clean; unfold py_pattern, mel_pattern;
      rewrite !Forall_app; split_and!; try done; repeat constructor; done.
Qed.

(** ** The timer of the search bar *)

Lemma burst_cons (q : ustring) (ms : Z) (keys : list (ustring * Z)) :
  Debounce.burst ((q, ms) :: keys)
  = Debounce.textChanged q :: Debounce.elapse ms :: Debounce.burst keys.
Proof. done. Qed.

Lemma run_burst_quiet (keys : list (ustring * Z)) (b : Debounce.FilterBox) :
  Forall (λ key, (key.2 < Debounce.user_input_filter_delay)%Z) keys →
  Debounce.filter_runs (Debounce.run b (Debounce.burst keys)) = Debounce.filter_runs b
  ∧ name_filters (Debounce.ui (Debounce.run b (Debounce.burst keys)))
    = name_filters (Debounce.ui b)
  ∧ tree_view (Debounce.ui (Debounce.run b (Debounce.burst keys)))
    = tree_view (Debounce.ui b).
Proof.
  revert b. induction keys as [|[q ms] keys IH]; intros b Hall; [done|].
  apply Forall_cons in Hall as [Hms Hall]. cbn in Hms.
  rewrite burst_cons. unfold Debounce.run. cbn [foldl].
  fold (Debounce.run (Debounce.step (Debounce.step b (Debounce.textChanged q))
                        (Debounce.elapse ms)) (Debounce.burst keys)).
  destruct (IH (Debounce.step (Debounce.step b (Debounce.textChanged q))
                  (Debounce.elapse ms)) Hall) as (-> & -> & ->).
  cbn. destruct (Z.leb_spec Debounce.user_input_filter_delay ms); [lia|done].
Qed.

(** X6: typing is debounced. While the pauses between the changes of the
    text stay under the delay of 200 ms, [filter_results] does not run and
    the filters and the tree stay as they are; once the last change is
    followed by a pause of at least the delay, [filter_results] runs once,
    on the text of the last change, and the timer is stopped. *)
Theorem filter_timer_debounces (b : Debounce.FilterBox) (keys : list (ustring * Z))
    (q : ustring) (ms : Z) :
  Forall (λ key, (key.2 < Debounce.user_input_filter_delay)%Z) keys →
  (Debounce.user_input_filter_delay <= ms)%Z →
  Debounce.filter_runs (Debounce.run b (Debounce.burst keys)) = Debounce.filter_runs b
  ∧ name_filters (Debounce.ui (Debounce.run b (Debounce.burst keys)))
    = name_filters (Debounce.ui b)
  ∧ tree_view (Debounce.ui (Debounce.run b (Debounce.burst keys)))
    = tree_view (Debounce.ui b)
  ∧ Debounce.run b (Debounce.burst keys ++ [Debounce.textChanged q; Debounce.elapse ms])
    = {| Debounce.ui := filter_results (typed q (Debounce.ui b));
         Debounce.filter_timer := None;
         Debounce.filter_runs := S (Debounce.filter_runs b) |}.
Proof.
  intros Hall Hms.
  destruct (run_burst_quiet keys b Hall) as (Hruns & Hfilters & Htree).
  split_and!; [done|done|done|].
  unfold Debounce.run in *. rewrite foldl_app. cbn [foldl Debounce.step].
  unfold Debounce._user_input_filter, Debounce.start. cbn.
  destruct (Z.leb_spec Debounce.user_input_filter_delay ms); [|lia].
  rewrite Hruns. f_equal.
  unfold filter_results, typed. cbn. rewrite Hfilters, Htree. done.
Qed.

Lemma filter_timer_debounces_witness :
  Debounce.run {| Debounce.ui := ui0; Debounce.filter_timer := None;
                  Debounce.filter_runs := 0 |}
    (Debounce.burst [(cps "r", 120); (cps "ri", 80); (cps "rig", 199)]
     ++ [Debounce.textChanged (cps "rig,"); Debounce.elapse 200])
  = {| Debounce.ui := filter_results (typed (cps "rig,") ui0);
       Debounce.filter_timer := None; Debounce.filter_runs := 1 |}.
Proof.
  destruct (filter_timer_debounces
              {| Debounce.ui := ui0; Debounce.filter_timer := None;
                 Debounce.filter_runs := 0 |}
              [(cps "r", 120); (cps "ri", 80); (cps "rig", 199)] (cps "rig,") 200)
    as (_ & _ & _ & H).
  - repeat constructor.
  - unfold Debounce.user_input_filter_delay. lia.
  - exact H.
Defined.

(** ** The radio items of a menu *)

Lemma radio_setting_texts (stored : QSettings) (key : string) (choices : list string)
    (default_choice : string) :
  (radio_setting stored key choices default_choice).*1 = choices.
Proof.
  unfold radio_setting. rewrite <- list_fmap_compose.
  induction choices as [|c cs IH]; [done|]. cbn. by rewrite IH.
Qed.

Lemma checked_count (item : string) (choices : list string) :
  NoDup choices →
  length (filter (λ a, a.2 = true)
            ((λ choice_key, (choice_key, bool_decide (choice_key = item))) <$> choices))
  = if decide (item ∈ choices) then 1%nat else 0%nat.
Proof.
  induction choices as [|c cs IH]; intros Hnd.
  - rewrite decide_False; [done|]. by intros ?%elem_of_nil.
  - apply NoDup_cons in Hnd as [Hc Hnd]. cbn [fmap list_fmap].
    rewrite filter_cons. cbn [snd].
    destruct (decide (c = item)) as [->|Hne].
    + rewrite bool_decide_eq_true_2 by done. rewrite decide_True by done.
      cbn [length]. rewrite (IH Hnd), decide_False by done.
      rewrite decide_True; [done|by left].
    + rewrite bool_decide_eq_false_2 by done. rewrite decide_False by done.
      rewrite (IH Hnd). destruct (decide (item ∈ cs)) as [Hin|Hin].
      * rewrite decide_True; [done|by right].
      * rewrite decide_False; [done|]. intros [?|?]%elem_of_cons; [congruence|done].
Qed.

(** X7: the radio items of a menu are the choices, in their order; an item
    is checked exactly when its text is the stored value, or the default
    choice when the key was never set or holds the empty string. When no
    choice comes twice, one item is checked if that value is among the
    choices, and none otherwise. *)
Theorem radio_setting_checked (stored : QSettings) (key : string)
    (choices : list string) (default_choice : string) :
  NoDup choices →
  let item_to_check :=
    match value stored key with
    | Some v => if decide (v = "") then default_choice else v
    | None => default_choice
    end in
  (radio_setting stored key choices default_choice).*1 = choices
  ∧ (∀ choice_key checked,
       (choice_key, checked) ∈ radio_setting stored key choices default_choice →
       checked = bool_decide (choice_key = item_to_check))
  ∧ length (filter (λ a, a.2 = true) (radio_setting stored key choices default_choice))
    = if decide (item_to_check ∈ choices) then 1%nat else 0%nat.
Proof.
  intros Hnd item_to_check.
  assert (radio_setting stored key choices default_choice
          = (λ choice_key, (choice_key, bool_decide (choice_key = item_to_check)))
              <$> choices) as Hradio.
  { unfold radio_setting, item_to_check, truthy.
    destruct (value stored key) as [v|]; [|done]. cbn.
    destruct (String.eqb_spec v ""); cbn; by case_decide. }
  split_and!.
  - apply radio_setting_texts.
  - intros c b Hin. rewrite Hradio in Hin.
    apply list_elem_of_fmap in Hin as (c' & Heq & _). by simplify_eq.
  - rewrite Hradio. by apply checked_count.
Qed.

Lemma radio_setting_checked_witness :
  radio_setting {[ k_double_click_action := "" ]} k_double_click_action
    [run_script_on_click; edit_script_on_click] run_script_on_click
  = [(run_script_on_click, true); (edit_script_on_click, false)]
  ∧ length (filter (λ a, a.2 = true)
              (radio_setting {[ k_double_click_action := "Something else" ]}
                 k_double_click_action
                 [run_script_on_click; edit_script_on_click] run_script_on_click))
    = 0%nat.
Proof.
  split; [reflexivity|].
  destruct (radio_setting_checked {[ k_double_click_action := "Something else" ]}
              k_double_click_action
              [run_script_on_click; edit_script_on_click] run_script_on_click)
    as (_ & _ & H).
  - repeat constructor; vm_compute;
      intros H; repeat (apply elem_of_cons in H as [H|H]; [discriminate H|]);
      by apply elem_of_nil in H.
  - rewrite H. reflexivity.
Defined.

(** ** The tabs closed last *)

Lemma reopen_last (stack : Tabs.closed_scripts) (p : option path) :
  Tabs.action_reopen_recently_closed (stack ++ [p])
  = (stack, match p with Some p => [Tabs.open_script p] | None => [] end).
Proof.
  unfold Tabs.action_reopen_recently_closed.
  rewrite last_snoc, removelast_last. by destruct p.
Qed.

Lemma close_all_app (ps : list (option path)) (stack : Tabs.closed_scripts) :
  Tabs.close_all ps stack = stack ++ ps.
Proof.
  revert stack. induction ps as [|p ps IH]; intros stack.
  - by rewrite app_nil_r.
  - change (Tabs.close_all (p :: ps) stack) with (Tabs.close_all ps (stack ++ [p])).
    rewrite IH. by rewrite <- app_assoc.
Qed.

(** X8: the closed tabs are reopened last closed first. After the tabs
    with the paths [ps] were closed, as many presses of the reopen shortcut
    open those of them that have a file, in the reverse order, and leave
    the list as it was before; with nothing on the list the shortcut does
    nothing, however often it is pressed. *)
Theorem reopen_recently_closed_lifo (ps : list (option path))
    (stack : Tabs.closed_scripts) (n : nat) :
  Tabs.reopen_times (length ps) (Tabs.close_all ps stack)
  = (stack, Tabs.open_script <$> omap id (reverse ps))
  ∧ Tabs.reopen_times n [] = ([], []).
Proof.
  split.
  - rewrite close_all_app. induction ps as [|p ps IH] using rev_ind.
    + by rewrite app_nil_r.
    + rewrite length_app, Nat.add_comm. cbn [length Nat.add Tabs.reopen_times].
      rewrite app_assoc, reopen_last, IH, reverse_snoc. by destruct p.
  - induction n as [|n IH]; [done|]. cbn. by rewrite IH.
Qed.

Example reopen_recently_closed_example :
  Tabs.reopen_times 3
    (Tabs.close_all [Some ["a.py"]; None; Some ["b.mel"]] [])
  = ([], [Tabs.open_script ["b.mel"]; Tabs.open_script ["a.py"]]).
Proof. reflexivity. Qed.

(** ** The dockable widget *)

Lemma create_dockable_widget_known (name : string) (restore force_refresh exists_ : bool)
    (wh : Dock.WindowHandler) :
  Dock.known wh →
  Dock.known (Dock.create_dockable_widget name restore force_refresh exists_ wh).1.1
  ∧ Dock.instances (Dock.create_dockable_widget name restore force_refresh exists_ wh).1.1
      !! name
    = Some (Dock.create_dockable_widget name restore force_refresh exists_ wh).1.2.
Proof.
  intros Hk. unfold Dock.create_dockable_widget. destruct force_refresh; cbn.
  - rewrite lookup_delete_eq. cbn. rewrite lookup_insert_eq. split; [|done].
    intros n i. cbn. destruct (decide (n = name)) as [->|Hn].
    + rewrite lookup_insert_eq. intros; simplify_eq. lia.
    + rewrite lookup_insert_ne, lookup_delete_ne by done. intros H%Hk. lia.
  - destruct (Dock.instances wh !! name) as [i|] eqn:E; cbn.
    + done.
    + rewrite lookup_insert_eq. split; [|done].
      intros n i. cbn. destruct (decide (n = name)) as [->|Hn].
      * rewrite lookup_insert_eq. intros; simplify_eq. lia.
      * rewrite lookup_insert_ne by done. intros H%Hk. lia.
Qed.

(** X9: under Maya the widget of a docking name is made once. A call
    without [force_refresh] that follows any earlier call returns the
    instance of that call and constructs nothing; a call with
    [force_refresh] constructs a new instance, which takes the place of the
    old one in the handler. *)
Theorem create_dockable_widget_once (name : string) (wh : Dock.WindowHandler)
    (restore1 force1 there1 restore2 there2 : bool) :
  Dock.known wh →
  let first := Dock.create_dockable_widget name restore1 force1 there1 wh in
  let again := Dock.create_dockable_widget name restore2 false there2 first.1.1 in
  let fresh := Dock.create_dockable_widget name restore2 true there2 first.1.1 in
  again.1.2 = first.1.2
  ∧ again.1.1 = first.1.1
  ∧ fresh.1.2 ≠ first.1.2
  ∧ Dock.constructed fresh.1.1 = S (Dock.constructed first.1.1)
  ∧ Dock.instances fresh.1.1 !! name = Some fresh.1.2.
Proof.
  intros Hk first again fresh.
  destruct (create_dockable_widget_known name restore1 force1 there1 wh Hk) as [Hk1 Hin].
  fold first in Hk1, Hin.
  split_and!.
  - unfold again, Dock.create_dockable_widget. cbn. by rewrite Hin.
  - unfold again, Dock.create_dockable_widget. cbn. by rewrite Hin.
  - unfold fresh, Dock.create_dockable_widget. cbn. rewrite lookup_delete_eq. cbn.
    apply Hk1 in Hin. lia.
  - unfold fresh, Dock.create_dockable_widget. cbn. by rewrite lookup_delete_eq.
  - unfold fresh, Dock.create_dockable_widget. cbn. rewrite lookup_delete_eq. cbn.
    by rewrite lookup_insert_eq.
Qed.

Lemma create_dockable_widget_once_witness :
  (Dock.create_dockable_widget "ScriptTreeWindow" true false true
     MoreExamples.handler_shown).1.2
  = MoreExamples.widget_shown
  ∧ (Dock.create_dockable_widget "ScriptTreeWindow" false true true
       MoreExamples.handler_shown).1.2
    ≠ MoreExamples.widget_shown.
Proof.
  destruct (create_dockable_widget_once "ScriptTreeWindow" MoreExamples.handler_fresh
              false false false true true)
    as (H1 & _ & _ & _).
  - intros n i H. cbn in H. rewrite lookup_empty in H. discriminate H.
  - split; [exact H1|].
    destruct (create_dockable_widget_once "ScriptTreeWindow" MoreExamples.handler_fresh
                false false false false true)
      as (_ & _ & H3 & _).
    + intros n i H. cbn in H. rewrite lookup_empty in H. discriminate H.
    + exact H3.
Defined.

(** ** The script folder *)

Lemma set_disk_same (w : world) : set_disk (disk w) w = w.
Proof. by destruct w. Qed.

Lemma mkdirs_of_dir (d : node) (p : path) :
  is_dir (stat d p) = true → mkdirs d p = Some d.
Proof.
  revert d. induction p as [|c p IH]; intros d Hd.
  - by destruct d.
  - destruct d as [|es]; [done|]. cbn [stat] in Hd. rewrite mkdirs_unfold.
    destruct (es !! c) as [n1|] eqn:Ec; [|done]. cbn in Hd. cbn [default].
    unfold id. rewrite (IH _ Hd). cbn. by rewrite insert_id.
Qed.

Lemma action_set_folder_run (p : path) (dialog : option path)
    (win : Folder.ScriptFolder) (w : world) (d' : node) :
  fault w = no_fault →
  mkdirs (disk w) p = Some d' →
  Folder.action_set_folder (Some p) dialog win w
  = (Return {| Folder.folder_path_text := Some p; Folder.k_folder_path := Some p |},
     set_disk d' w).
Proof.
  intros Hf Hmk. unfold Folder.action_set_folder.
  rewrite (bind_return _ _ _ _ _ (path_exists_run _ _)).
  destruct (stat (disk w) p) as [x|] eqn:E.
  - rewrite bool_decide_eq_true_2 by done. cbn [negb].
    rewrite (bind_return _ _ _ _ _ (ret_run _ _)).
    assert (d' = disk w) as -> by (eapply mkdirs_existing; [done|by rewrite E]).
    by rewrite set_disk_same.
  - rewrite bool_decide_eq_false_2 by (by intros [? ?]). cbn [negb].
    by rewrite (bind_return _ _ _ _ _ (makedirs_run _ _ _ Hf E Hmk)).
Qed.

(** X10: a folder that is a directory, or that can be made, becomes the
    script folder: the directory is there afterwards, the field of the
    panel and the settings both hold the folder, and no regular file on
    the disk is touched. The same happens when the folder comes from the
    dialog; a dialog that is dismissed changes nothing. *)
Theorem action_set_folder_sets (p : path) (dialog : option path)
    (win : Folder.ScriptFolder) (w : world) :
  fault w = no_fault →
  is_Some (mkdirs (disk w) p) →
  (∃ d', Folder.action_set_folder (Some p) dialog win w
         = (Return {| Folder.folder_path_text := Some p; Folder.k_folder_path := Some p |},
            set_disk d' w)
       ∧ Folder.action_set_folder None (Some p) win w
         = (Return {| Folder.folder_path_text := Some p; Folder.k_folder_path := Some p |},
            set_disk d' w)
       ∧ is_dir (stat d' p) = true
       ∧ (∀ q, file_at d' q = file_at (disk w) q)
       ∧ (∀ q, ¬ q `prefix_of` p → stat d' q = stat (disk w) q))
  ∧ Folder.action_set_folder None None win w = (Return win, w).
Proof.
  intros Hf [d' Hmk]. split; [|done].
  exists d'. split_and!.
  - by apply action_set_folder_run.
  - by apply (action_set_folder_run p None).
  - by eapply mkdirs_stat_dir.
  - intros q. by eapply file_at_mkdirs.
  - intros q Hq. by eapply mkdirs_stat_frame.
Qed.

Lemma action_set_folder_sets_witness :
  ∃ d', Folder.action_set_folder (Some (Examples.stf ++ ["Rigging"; "Tools"])) None
          {| Folder.folder_path_text := None; Folder.k_folder_path := None |}
          (Examples.machine Examples.disk_fresh Examples.now)
        = (Return {| Folder.folder_path_text := Some (Examples.stf ++ ["Rigging"; "Tools"]);
                     Folder.k_folder_path := Some (Examples.stf ++ ["Rigging"; "Tools"]) |},
           set_disk d' (Examples.machine Examples.disk_fresh Examples.now))
      ∧ is_dir (stat d' (Examples.stf ++ ["Rigging"; "Tools"])) = true
      ∧ file_at d' Examples.script = Some ("import pymel.core as pm", 1699990000).
Proof.
  destruct (action_set_folder_sets (Examples.stf ++ ["Rigging"; "Tools"]) None
              {| Folder.folder_path_text := None; Folder.k_folder_path := None |}
              (Examples.machine Examples.disk_fresh Examples.now))
    as [(d' & Hrun & _ & Hdir & Hfiles & _) _].
  - reflexivity.
  - vm_compute. eauto.
  - exists d'. split_and!; [exact Hrun|exact Hdir|].
    rewrite Hfiles. reflexivity.
Defined.

(** X11: the folder is kept across sessions. The first session of all
    finds no entry in the settings and takes the default folder,
    [<script_tree_folder>/Scripts], making it when it is missing; a session
    that follows one in which a folder was set comes back to that folder
    and leaves the disk as it is. *)
Theorem init_restores_folder (stf p : path) (dialog dialog' : option path)
    (win : Folder.ScriptFolder) (w : world) :
  fault w = no_fault →
  is_Some (mkdirs (disk w) p) →
  is_Some (mkdirs (disk w) (stf ++ ["Scripts"])) →
  (∃ win' w',
     Folder.action_set_folder (Some p) dialog win w = (Return win', w')
     ∧ Folder.get_script_folder win' = Some p
     ∧ Folder.init stf (Folder.k_folder_path win') dialog' w' = (Return win', w'))
  ∧ ∃ d', Folder.init stf None dialog w
          = (Return {| Folder.folder_path_text := Some (stf ++ ["Scripts"]);
                       Folder.k_folder_path := Some (stf ++ ["Scripts"]) |},
             set_disk d' w)
        ∧ is_dir (stat d' (stf ++ ["Scripts"])) = true.
Proof.
  intros Hf [d1 Hmk] [d2 Hmk2]. split.
  - eexists _, _. split_and!.
    + by apply action_set_folder_run.
    + done.
    + cbn [Folder.k_folder_path]. unfold Folder.init. cbn [default].
      rewrite <- (set_disk_same (set_disk d1 w)) at 2.
      apply action_set_folder_run; [done|]. cbn [disk set_disk].
      apply mkdirs_of_dir. by eapply mkdirs_stat_dir.
  - exists d2. split; [|by eapply mkdirs_stat_dir].
    unfold Folder.init. cbn [default]. by apply action_set_folder_run.
Qed.

Lemma init_restores_folder_witness :
  ∃ d', Folder.init Examples.stf None None
          (Examples.machine (Dir ∅) Examples.now)
        = (Return {| Folder.folder_path_text := Some (Examples.stf ++ ["Scripts"]);
                     Folder.k_folder_path := Some (Examples.stf ++ ["Scripts"]) |},
           set_disk d' (Examples.machine (Dir ∅) Examples.now))
      ∧ is_dir (stat d' (Examples.stf ++ ["Scripts"])) = true.
Proof.
  destruct (init_restores_folder Examples.stf (Examples.stf ++ ["Scripts"]) None None
              {| Folder.folder_path_text := None; Folder.k_folder_path := None |}
              (Examples.machine (Dir ∅) Examples.now)) as [_ H].
  - reflexivity.
  - vm_compute. eauto.
  - vm_compute. eauto.
  - exact H.
Defined.

(** X12: when the folder is missing and a regular file is on the way to
    it, [action_set_folder] raises [NotADirectoryError]; the disk and the
    log are as before, and neither the panel nor the settings get the
    folder. *)
Theorem action_set_folder_blocked (p : path) (dialog : option path)
    (win : Folder.ScriptFolder) (w : world) :
  fault w = no_fault →
  stat (disk w) p = None →
  mkdirs (disk w) p = None →
  Folder.action_set_folder (Some p) dialog win w = (Raise (NotADirectoryError p), w).
Proof.
  intros Hf Hst Hmk. unfold Folder.action_set_folder.
  rewrite (bind_return _ _ _ _ _ (path_exists_run _ _)), Hst.
  rewrite bool_decide_eq_false_2 by (by intros [? ?]). cbn [negb].
  apply bind_raise. unfold makedirs.
  rewrite (bind_return _ _ _ _ _ (check_fault_none _ _ Hf)).
  unfold mbind, M_bind, get_disk. by rewrite Hst, Hmk.
Qed.

Lemma action_set_folder_blocked_witness :
  Folder.action_set_folder
    (Some (Examples.stf ++ ["ScriptTree_TreeBackup"; "Old"])) None
    {| Folder.folder_path_text := None; Folder.k_folder_path := None |}
    (Examples.machine Examples.disk_blocked Examples.now)
  = (Raise (NotADirectoryError (Examples.stf ++ ["ScriptTree_TreeBackup"; "Old"])),
     Examples.machine Examples.disk_blocked Examples.now).
Proof.
  apply action_set_folder_blocked; reflexivity.
Defined.

(** ** More on the backup of a script *)

(** The two steps of a backup that goes through: the backup folder is
    made, or is there, and the file is written into it. *)
Lemma backup_script_steps (stf script_path : path) (w : world) data mtime d1 :
  fault w = no_fault →
  stat (disk w) script_path = Some (File data mtime) →
  mkdirs (disk w) (get_backup_folder_for_script stf script_path) = Some d1 →
  is_dir (stat (disk w)
            (backup_file_path stf script_path (str_of_int (int_of_float (clock w)))))
  = false →
  ∃ d', put d1 (backup_file_path stf script_path (str_of_int (int_of_float (clock w))))
          (File data mtime) = Some d'
      ∧ is_dir (stat d1 (backup_file_path stf script_path
                           (str_of_int (int_of_float (clock w))))) = false
      ∧ backup_script stf script_path w = (Return (), set_disk d' w).
Proof.
  intros Hf Hsrc Hmk Hnd.
  set (folder := get_backup_folder_for_script stf script_path) in *.
  set (name := backup_file_name script_path (str_of_int (int_of_float (clock w)))).
  assert (backup_file_path stf script_path (str_of_int (int_of_float (clock w)))
          = join folder name) as Hdest by done.
  rewrite Hdest in *.
  pose proof (mkdirs_stat_dir _ _ _ Hmk) as Hdir.
  destruct (stat d1 folder) as [[|es]|] eqn:Efolder; try done. clear Hdir.
  assert (stat d1 script_path = Some (File data mtime)) as Hsrc1.
  { apply file_at_stat. rewrite (file_at_mkdirs _ _ _ script_path Hmk).
    by apply file_at_stat. }
  assert (is_dir (stat d1 (join folder name)) = false) as Hnd1.
  { rewrite (mkdirs_stat_frame _ _ _ _ Hmk); [done|]. apply prefix_snoc_not. }
  assert (script_path ≠ join folder name) as Hne.
  { rewrite <- Hdest. apply backup_file_path_differs. }
  destruct (copy2_run script_path folder name (set_disk d1 w) data mtime es)
    as (d' & Hrun & Hput & _); try done.
  exists d'. split_and!; [done|done|].
  rewrite backup_script_present by (by rewrite Hsrc).
  unfold try_except, backup_script_body.
  rewrite (bind_return _ _ _ _ _ (time_time_run _)). cbv zeta.
  rewrite Hdest, dirname_join.
  rewrite (bind_return _ _ _ _ _ (path_exists_run _ _)).
  destruct (stat (disk w) folder) as [x|] eqn:Ex.
  - rewrite bool_decide_eq_true_2 by done. cbn [negb].
    assert (d1 = disk w) as Hd1 by (eapply mkdirs_existing; [done|by rewrite Ex]).
    rewrite (bind_return _ _ _ _ _ (ret_run _ _)).
    rewrite Hd1, set_disk_same in Hrun. by rewrite Hrun.
  - rewrite bool_decide_eq_false_2 by (by intros [? ?]). cbn [negb].
    rewrite (bind_return _ _ _ _ _ (makedirs_run _ _ _ Hf Ex Hmk)).
    by rewrite Hrun.
Qed.

Lemma put_existing (d : node) (p : path) (x y : node) :
  stat d p = Some y → is_Some (put d p x).
Proof.
  revert d. induction p as [|c p IH]; intros d Hst; [done|].
  destruct d as [|es]; [done|]. cbn [stat] in Hst.
  destruct (es !! c) as [n1|] eqn:Ec; [|done]. cbn in Hst.
  destruct p as [|c' p]; [done|].
  rewrite put_cons_cons, Ec. cbn [mbind option_bind].
  destruct (IH _ Hst) as [n2 ->]. done.
Qed.

(** Writing a file where no directory is makes and removes no
    directory. *)
Lemma put_file_keeps_dirs (d d' : node) (p q : path) data mtime :
  put d p (File data mtime) = Some d' →
  is_dir (stat d p) = false →
  is_dir (stat d' q) = is_dir (stat d q).
Proof.
  intros Hput Hnd.
  destruct (decide (p `prefix_of` q)) as [[r ->]|Hpq].
  - rewrite (put_stat_below _ _ _ _ _ Hput), stat_app.
    destruct r as [|c r].
    + cbn. destruct (stat d p) as [[]|]; done.
    + cbn. by destruct (stat d p) as [[]|].
  - destruct (decide (q `prefix_of` p)) as [[r ->]|Hqp].
    + destruct r as [|c r]; [destruct Hpq; by rewrite app_nil_r|].
      destruct (put_on_way _ _ _ _ _ _ Hput) as [-> ->]. done.
    + by rewrite (put_stat_frame _ _ _ _ _ Hput Hpq Hqp).
Qed.

Lemma string_app_inv_r (a b c : string) : a +:+ c = b +:+ c → a = b.
Proof.
  revert b. induction a as [|x a IH]; intros b H.
  - destruct b as [|y b]; [done|].
    apply (f_equal String.length) in H. rewrite !string_length_app in H.
    cbn in H. lia.
  - destruct b as [|y b].
    + apply (f_equal String.length) in H. rewrite !string_length_app in H.
      cbn in H. lia.
    + change (String x (a +:+ c) = String y (b +:+ c)) in H.
      injection H as -> H. f_equal. by apply IH.
Qed.

(** Backups of one script with different time stamps have different
    names. *)
Lemma backup_file_path_inj (stf script_path : path) (s1 s2 : string) :
  backup_file_path stf script_path s1 = backup_file_path stf script_path s2 → s1 = s2.
Proof.
  unfold backup_file_path, backup_file_name, join.
  destruct (splitext (basename script_path)) as [stem ext].
  intros H. apply app_inj_tail in H as [_ H].
  apply (inj (String.append stem)) in H.
  apply (inj (String.append "_BACKUP_")) in H.
  by apply string_app_inv_r in H.
Qed.

(** X13: two saves of a script more than a second apart keep both
    versions. The first backup holds the script as it was at the first
    save; after the editor has written new content, the second backup
    holds that content, under another name, and the first backup is as it
    was. *)
Theorem backups_keep_versions (stf script_path : path) (w : world)
    (data1 : string) (mtime1 : Z) (data2 : string) (mtime2 : Z) (t2 : Q) :
  fault w = no_fault →
  stat (disk w) script_path = Some (File data1 mtime1) →
  is_Some (mkdirs (disk w) (get_backup_folder_for_script stf script_path)) →
  let dest1 := backup_file_path stf script_path (str_of_int (int_of_float (clock w))) in
  let dest2 := backup_file_path stf script_path (str_of_int (int_of_float t2)) in
  is_dir (stat (disk w) dest1) = false →
  is_dir (stat (disk w) dest2) = false →
  (0 <= clock w)%Q → (clock w + 1 < t2)%Q →
  ∃ d1 d1' d2,
    backup_script stf script_path w = (Return (), set_disk d1 w)
    ∧ put d1 script_path (File data2 mtime2) = Some d1'
    ∧ backup_script stf script_path (set_clock t2 (set_disk d1' w))
      = (Return (), set_clock t2 (set_disk d2 w))
    ∧ dest1 ≠ dest2
    ∧ file_at d2 dest1 = Some (data1, mtime1)
    ∧ file_at d2 dest2 = Some (data2, mtime2)
    ∧ file_at d2 script_path = Some (data2, mtime2).
Proof.
  intros Hf Hsrc [dm Hmk] dest1 dest2 Hnd1 Hnd2 H0 Hlater.
  set (folder := get_backup_folder_for_script stf script_path) in *.
  destruct (backup_script_steps stf script_path w data1 mtime1 dm Hf Hsrc Hmk Hnd1)
    as (d1 & Hput1 & Hndm & Hrun1).
  fold dest1 in Hput1, Hndm, Hrun1.
  assert (dest1 ≠ dest2) as Hne.
  { intros H. apply backup_file_path_inj, str_of_int_inj in H.
    pose proof (int_of_float_later _ _ H0 Hlater). lia. }
  assert (dest1 ≠ script_path) as Hne1.
  { intros H. by apply (backup_file_path_differs stf script_path
                          (str_of_int (int_of_float (clock w)))). }
  assert (dest2 ≠ script_path) as Hne2.
  { intros H. by apply (backup_file_path_differs stf script_path
                          (str_of_int (int_of_float t2))). }
  assert (∀ q, file_at d1 q = if decide (q = dest1) then Some (data1, mtime1)
                              else file_at (disk w) q) as Hfiles1.
  { intros q. rewrite (file_at_put _ _ _ q _ _ Hput1 Hndm).
    case_decide; [done|]. by eapply file_at_mkdirs. }
  assert (stat d1 script_path = Some (File data1 mtime1)) as Hsrc1.
  { apply file_at_stat. rewrite Hfiles1, decide_False by done. by apply file_at_stat. }
  destruct (put_existing d1 script_path (File data2 mtime2) _ Hsrc1) as [d1' Hput].
  assert (is_dir (stat d1 script_path) = false) as Hnds by (by rewrite Hsrc1).
  assert (∀ q, is_dir (stat d1' q) = is_dir (stat (disk w) q) ∨ q `prefix_of` folder
               ∨ q = dest1) as Hdirs.
  { intros q. destruct (decide (q `prefix_of` folder)) as [|Hq]; [by auto|].
    destruct (decide (q = dest1)) as [|Hq1]; [by auto|]. left.
    rewrite (put_file_keeps_dirs _ _ _ q _ _ Hput Hnds).
    rewrite (put_file_keeps_dirs _ _ _ q _ _ Hput1 Hndm).
    by rewrite (mkdirs_stat_frame _ _ _ _ Hmk Hq). }
  assert (is_dir (stat d1' folder) = true) as Hfolder.
  { rewrite (put_file_keeps_dirs _ _ _ folder _ _ Hput Hnds).
    rewrite (put_file_keeps_dirs _ _ _ folder _ _ Hput1 Hndm).
    by eapply mkdirs_stat_dir. }
  assert (is_dir (stat d1' dest2) = false) as Hnd2'.
  { destruct (Hdirs dest2) as [->|[H|H]]; [done| |done].
    destruct (prefix_snoc_not _ _ H). }
  destruct (backup_script_steps stf script_path (set_clock t2 (set_disk d1' w))
              data2 mtime2 d1' Hf) as (d2 & Hput2 & _ & Hrun2).
  { cbn. apply (put_stat_below _ _ _ [] _) in Hput. by rewrite app_nil_r in Hput. }
  { cbn. by apply mkdirs_of_dir. }
  { done. }
  cbn [clock set_clock] in Hput2, Hrun2. fold dest2 in Hput2, Hrun2.
  exists d1, d1', d2. split_and!; try done.
  - rewrite (file_at_put _ _ _ _ _ _ Hput2 Hnd2'), decide_False by done.
    rewrite (file_at_put _ _ _ _ _ _ Hput Hnds), decide_False by done.
    rewrite Hfiles1. by rewrite decide_True.
  - rewrite (file_at_put _ _ _ _ _ _ Hput2 Hnd2'). by rewrite decide_True.
  - rewrite (file_at_put _ _ _ _ _ _ Hput2 Hnd2'), decide_False by done.
    rewrite (file_at_put _ _ _ _ _ _ Hput Hnds). by rewrite decide_True.
Qed.

Lemma backups_keep_versions_witness :
  ∃ d1 d1' d2,
    backup_script Examples.stf Examples.script
      (Examples.machine Examples.disk_fresh Examples.now)
    = (Return (), set_disk d1 (Examples.machine Examples.disk_fresh Examples.now))
    ∧ put d1 Examples.script (File "import maya.cmds as mc" 1700000001) = Some d1'
    ∧ file_at d2 (Examples.stf ++ ["ScriptTree_ScriptBackup"; "rig";
                                   "rig_BACKUP_1700000000.py"])
      = Some ("import pymel.core as pm", 1699990000)
    ∧ file_at d2 (Examples.stf ++ ["ScriptTree_ScriptBackup"; "rig";
                                   "rig_BACKUP_1700000002.py"])
      = Some ("import maya.cmds as mc", 1700000001).
Proof.
  destruct (backups_keep_versions Examples.stf Examples.script
              (Examples.machine Examples.disk_fresh Examples.now)
              "import pymel.core as pm" 1699990000
              "import maya.cmds as mc" 1700000001 Examples.later)
    as (d1 & d1' & d2 & H1 & H2 & _ & _ & H4 & H5 & _).
  - reflexivity.
  - reflexivity.
  - vm_compute. eauto.
  - reflexivity.
  - reflexivity.
  - vm_compute. discriminate.
  - reflexivity.
  - exists d1, d1', d2. split_and!; [exact H1|exact H2|exact H4|exact H5].
Defined.

(** X14: the place of a backup depends on the base name of the script and
    on the second only. Of two scripts with the same base name in
    different folders that are saved within the same second, the backup
    folder holds one backup, with the content of the script saved last;
    every other file is as before. *)
Theorem backups_of_namesakes (stf script1 script2 : path) (w : world)
    (data1 : string) (mtime1 : Z) (data2 : string) (mtime2 : Z) :
  fault w = no_fault →
  basename script1 = basename script2 →
  stat (disk w) script1 = Some (File data1 mtime1) →
  stat (disk w) script2 = Some (File data2 mtime2) →
  is_Some (mkdirs (disk w) (get_backup_folder_for_script stf script1)) →
  let seconds := str_of_int (int_of_float (clock w)) in
  is_dir (stat (disk w) (backup_file_path stf script1 seconds)) = false →
  backup_file_path stf script2 seconds = backup_file_path stf script1 seconds
  ∧ ∃ d1 d2,
      backup_script stf script1 w = (Return (), set_disk d1 w)
      ∧ backup_script stf script2 (set_disk d1 w) = (Return (), set_disk d2 w)
      ∧ ∀ q, file_at d2 q
             = if decide (q = backup_file_path stf script1 seconds)
               then Some (data2, mtime2) else file_at (disk w) q.
Proof.
  intros Hf Hbase Hsrc1 Hsrc2 [dm Hmk] seconds Hnd.
  assert (get_backup_folder_for_script stf script2
          = get_backup_folder_for_script stf script1) as Hfolder.
  { unfold get_backup_folder_for_script. by rewrite Hbase. }
  assert (backup_file_path stf script2 seconds = backup_file_path stf script1 seconds)
    as Hdest.
  { unfold backup_file_path, backup_file_name. by rewrite Hfolder, Hbase. }
  split; [done|].
  destruct (backup_script_steps stf script1 w data1 mtime1 dm Hf Hsrc1 Hmk Hnd)
    as (d1 & Hput1 & Hndm & Hrun1).
  fold seconds in Hput1, Hndm, Hrun1.
  set (dest := backup_file_path stf script1 seconds) in *.
  assert (∀ q, file_at d1 q = if decide (q = dest) then Some (data1, mtime1)
                              else file_at (disk w) q) as Hfiles1.
  { intros q. rewrite (file_at_put _ _ _ q _ _ Hput1 Hndm).
    case_decide; [done|]. by eapply file_at_mkdirs. }
  assert (stat d1 dest = Some (File data1 mtime1)) as Hdest1.
  { apply file_at_stat. rewrite Hfiles1. by rewrite decide_True. }
  assert (script2 ≠ dest) as Hne2.
  { rewrite <- Hdest. apply backup_file_path_differs. }
  destruct (backup_script_steps stf script2 (set_disk d1 w) data2 mtime2 d1 Hf)
    as (d2 & Hput2 & _ & Hrun2).
  { cbn. apply file_at_stat. rewrite Hfiles1, decide_False by done. by apply file_at_stat. }
  { cbn. rewrite Hfolder. apply mkdirs_of_dir.
    rewrite (put_file_keeps_dirs _ _ _ _ _ _ Hput1 Hndm). by eapply mkdirs_stat_dir. }
  { cbn. fold seconds. rewrite Hdest. fold dest. by rewrite Hdest1. }
  cbn [clock set_disk] in Hput2, Hrun2. fold seconds in Hput2, Hrun2.
  rewrite Hdest in Hput2. fold dest in Hput2.
  exists d1, d2. split_and!; [done|done|].
  intros q. rewrite (file_at_put _ _ _ q _ _ Hput2); [|by rewrite Hdest1].
  case_decide; [done|]. rewrite Hfiles1. by rewrite decide_False.
Qed.

Lemma backups_of_namesakes_witness :
  ∃ d1 d2,
    backup_script Examples.stf Examples.script
      (Examples.machine MoreExamples.disk_namesakes Examples.now)
    = (Return (), set_disk d1 (Examples.machine MoreExamples.disk_namesakes Examples.now))
    ∧ backup_script Examples.stf MoreExamples.script_old
        (set_disk d1 (Examples.machine MoreExamples.disk_namesakes Examples.now))
      = (Return (), set_disk d2 (Examples.machine MoreExamples.disk_namesakes Examples.now))
    ∧ file_at d2 (Examples.stf ++ ["ScriptTree_ScriptBackup"; "rig";
                                   "rig_BACKUP_1700000000.py"])
      = Some ("import maya.cmds as mc", 1699980000).
Proof.
  destruct (backups_of_namesakes Examples.stf Examples.script MoreExamples.script_old
              (Examples.machine MoreExamples.disk_namesakes Examples.now)
              "import pymel.core as pm" 1699990000
              "import maya.cmds as mc" 1699980000)
    as (_ & d1 & d2 & H1 & H2 & H3).
  - reflexivity.
  - reflexivity.
  - reflexivity.
  - reflexivity.
  - vm_compute. eauto.
  - reflexivity.
  - exists d1, d2. split_and!; [exact H1|exact H2|].
    rewrite H3. reflexivity.
Defined.

Lemma mkdirs_keeps_dirs (p : path) :
  ∀ (n n' : node) (q : path),
    mkdirs n p = Some n' → is_dir (stat n q) = true → is_dir (stat n' q) = true.
Proof.
  induction p as [|c p IH]; intros n n' q Hmk Hq.
  - destruct n; [done|]. cbn in Hmk. by simplify_eq.
  - destruct n as [|es]; [done|]. rewrite mkdirs_unfold in Hmk.
    destruct (mkdirs (default (Dir ∅) (es !! c)) p) as [n1|] eqn:E; [|done].
    cbn [mbind option_bind] in Hmk. simplify_eq.
    destruct q as [|c' q]; [done|]. cbn [stat] in *.
    destruct (decide (c' = c)) as [->|Hne].
    + rewrite lookup_insert_eq. cbn [mbind option_bind].
      destruct (es !! c) as [m|] eqn:Em; [|done].
      cbn [mbind option_bind default] in *. by eapply IH.
    + by rewrite lookup_insert_ne.
Qed.

Lemma copy2_of_directory (src dst : path) (w : world) :
  is_dir (stat (disk w) src) = true →
  ∃ e, copy2 src dst w = (Raise e, w)
       ∧ (fault w = no_fault → e = IsADirectoryError src).
Proof.
  intros Hdir. unfold copy2, check_fault, mbind, M_bind.
  destruct (fault w (sys_copy2 src dst) (disk w)) as [e|] eqn:Ef.
  - exists e. split; [done|]. intros Hf. rewrite Hf in Ef. done.
  - exists (IsADirectoryError src). split; [|done].
    unfold get_disk. destruct (stat (disk w) src) as [[|es]|]; done.
Qed.

Lemma backup_script_body_of_directory (stf script_path : path) (w : world) :
  is_dir (stat (disk w) script_path) = true →
  ∃ d' e,
    backup_script_body stf script_path w = (Raise e, set_disk d' w)
    ∧ (∀ q, file_at d' q = file_at (disk w) q)
    ∧ (fault w = no_fault →
       is_Some (mkdirs (disk w) (get_backup_folder_for_script stf script_path)) →
       e = IsADirectoryError script_path).
Proof.
  intros Hdir. unfold backup_script_body.
  rewrite (bind_return _ _ _ _ _ (time_time_run _)). cbv zeta.
  change (dirname (backup_file_path stf script_path (str_of_int (int_of_float (clock w)))))
    with (dirname (join (get_backup_folder_for_script stf script_path)
                        (backup_file_name script_path
                           (str_of_int (int_of_float (clock w)))))).
  rewrite dirname_join.
  set (folder := get_backup_folder_for_script stf script_path).
  rewrite (bind_return _ _ _ _ _ (path_exists_run _ _)).
  destruct (stat (disk w) folder) as [x|] eqn:Ex.
  - rewrite bool_decide_eq_true_2 by done. cbn [negb].
    rewrite (bind_return _ _ _ _ _ (ret_run _ _)).
    destruct (copy2_of_directory script_path
                (backup_file_path stf script_path (str_of_int (int_of_float (clock w))))
                w Hdir) as (e & Hrun & He).
    exists (disk w), e. rewrite set_disk_same. split_and!; [done|done|]. auto.
  - rewrite bool_decide_eq_false_2 by (by intros [? ?]). cbn [negb].
    destruct (fault w (sys_makedirs folder) (disk w)) as [e|] eqn:Ef.
    + exists (disk w), e. rewrite set_disk_same. split_and!; [|done|].
      * apply bind_raise. unfold makedirs. apply bind_raise.
        unfold check_fault. by rewrite Ef.
      * intros Hf. rewrite Hf in Ef. done.
    + assert (check_fault (sys_makedirs folder) w = (Return (), w)) as Hcf.
      { unfold check_fault. by rewrite Ef. }
      destruct (mkdirs (disk w) folder) as [d1|] eqn:Emk.
      * assert (makedirs folder w = (Return (), set_disk d1 w)) as Hmd.
        { unfold makedirs. rewrite (bind_return _ _ _ _ _ Hcf).
          unfold mbind, M_bind, get_disk. by rewrite Ex, Emk. }
        rewrite (bind_return _ _ _ _ _ Hmd).
        destruct (copy2_of_directory script_path
                    (backup_file_path stf script_path
                       (str_of_int (int_of_float (clock w))))
                    (set_disk d1 w)) as (e & Hrun & He).
        { cbn. by eapply mkdirs_keeps_dirs. }
        exists d1, e. split_and!; [done| |by auto].
        intros q. by eapply file_at_mkdirs.
      * exists (disk w), (NotADirectoryError folder). rewrite set_disk_same.
        split_and!; [|done|by intros _ [? ?]].
        apply bind_raise. unfold makedirs. rewrite (bind_return _ _ _ _ _ Hcf).
        unfold mbind, M_bind, get_disk. by rewrite Ex, Emk.
Qed.

(** X15: a backup of a path that is a directory copies nothing. From
    every machine, [backup_script] returns normally, no file appears or
    changes, and one error is logged, through the root logger; when no
    call fails for a reason of the machine and the backup folder can be
    made, that error is the one of [shutil.copy2] on a directory. *)
Theorem backup_script_of_directory (stf script_path : path) (w : world)
    (es : gmap string node) :
  stat (disk w) script_path = Some (Dir es) →
  ∃ d' e,
    backup_script stf script_path w
    = (Return (),
       add_record {| record_logger := root; record_level := ERROR;
                     record_msg := str_of_exn e |} (set_disk d' w))
    ∧ (∀ q, file_at d' q = file_at (disk w) q)
    ∧ (fault w = no_fault →
       is_Some (mkdirs (disk w) (get_backup_folder_for_script stf script_path)) →
       e = IsADirectoryError script_path).
Proof.
  intros Hsrc.
  destruct (backup_script_body_of_directory stf script_path w)
    as (d' & e & Hbody & Hfiles & He); [by rewrite Hsrc|].
  exists d', e. split_and!; [|done|done].
  rewrite backup_script_present by (by rewrite Hsrc).
  unfold try_except. by rewrite Hbody.
Qed.

Lemma backup_script_of_directory_witness :
  ∃ d',
    backup_script Examples.stf Examples.script_folder
      (Examples.machine Examples.disk_fresh Examples.now)
    = (Return (),
       add_record {| record_logger := root; record_level := ERROR;
                     record_msg := str_of_exn (IsADirectoryError Examples.script_folder) |}
         (set_disk d' (Examples.machine Examples.disk_fresh Examples.now)))
    ∧ file_at d' Examples.script = Some ("import pymel.core as pm", 1699990000).
Proof.
  destruct (backup_script_of_directory Examples.stf Examples.script_folder
              (Examples.machine Examples.disk_fresh Examples.now) Examples.scripts)
    as (d' & e & Hrun & Hfiles & He).
  - reflexivity.
  - exists d'. rewrite He in Hrun.
    + split; [exact Hrun|]. rewrite Hfiles. reflexivity.
    + reflexivity.
    + vm_compute. eauto.
Defined.




Lemma put_same (p : path) :
  ∀ (n x : node), stat n p = Some x → put n p x = Some n.
Proof.
  induction p as [|c p IH]; intros n x Hst.
  - cbn in *. by simplify_eq.
  - destruct n as [|es]; [done|]. cbn [stat] in Hst.
    destruct (es !! c) as [m|] eqn:Em; [|done]. cbn [mbind option_bind] in Hst.
    destruct p as [|c' p].
    + cbn in Hst. simplify_eq. cbn. by rewrite insert_id.
    + rewrite put_cons_cons, Em. cbn [mbind option_bind].
      rewrite (IH m x Hst). cbn [mbind option_bind]. by rewrite insert_id.
Qed.

Lemma copy_item_again (src dst : path) (es : gmap string node) (k : string) (w : world) :
  src ≠ dst →
  fault w = no_fault →
  stat (disk w) src = Some (Dir es) →
  stat (disk w) dst = Some (Dir es) →
  is_Some (es !! k) →
  copy_item src dst k w
  = if is_dir (es !! k) then (Raise (FileExistsError (join dst k)), w)
    else (Return (), w).
Proof.
  intros Hne Hf Hsrc Hdst [x Hx]. unfold copy_item.
  rewrite (bind_return _ _ _ _ _ (path_isdir_run _ _)).
  rewrite (stat_child _ _ _ _ Hsrc), Hx.
  destruct x as [data mtime|es']; cbn [is_dir].
  - destruct (copy2_run (join src k) dst k w data mtime es) as (d' & Hrun & Hput & _);
      try done.
    + by rewrite (stat_child _ _ _ _ Hsrc).
    + by rewrite (stat_child _ _ _ _ Hdst), Hx.
    + unfold join. intros Heq. by apply app_inv_tail in Heq.
    + rewrite Hrun. rewrite put_same in Hput.
      * simplify_eq. by rewrite set_disk_same.
      * by rewrite (stat_child _ _ _ _ Hdst).
  - unfold copytree, mbind, M_bind, get_disk.
    rewrite (stat_child _ _ _ _ Hsrc), Hx, (stat_child _ _ _ _ Hdst), Hx. done.
Qed.

Lemma for_each_copy_item_again (src dst : path) (es : gmap string node) (w : world) :
  src ≠ dst →
  fault w = no_fault →
  stat (disk w) src = Some (Dir es) →
  stat (disk w) dst = Some (Dir es) →
  ∀ todo : list string,
    (∀ k, k ∈ todo → is_Some (es !! k)) →
    (Forall (λ k, is_dir (es !! k) = false) todo
     ∧ for_each todo (copy_item src dst) w = (Return (), w))
    ∨ (∃ k, k ∈ todo ∧ is_dir (es !! k) = true
            ∧ for_each todo (copy_item src dst) w
              = (Raise (FileExistsError (join dst k)), w)).
Proof.
  intros Hne Hf Hsrc Hdst todo. induction todo as [|k todo IH]; intros Hin.
  - left. by split.
  - pose proof (copy_item_again src dst es k w Hne Hf Hsrc Hdst) as Hk.
    specialize (Hk (Hin k ltac:(left))).
    destruct (is_dir (es !! k)) eqn:Edir.
    + right. exists k. split_and!; [left|done|].
      cbn [for_each]. by apply bind_raise.
    + cbn [for_each]. rewrite (bind_return _ _ _ _ _ Hk).
      destruct IH as [[Hall Hrun]|(k' & Hk' & Hdir' & Hrun)].
      * intros k' Hk'. apply Hin. by right.
      * left. split; [by constructor|done].
      * right. exists k'. split_and!; [by right|done|done].
Qed.

(** X17: a second snapshot within the same second, of a tree that has not
    changed. The destination is the directory of the first snapshot. When
    the script folder holds files only, every file is copied onto its
    copy, the disk is what it was and the snapshot is reported; as soon as
    the folder has a subfolder, [shutil.copytree] refuses the existing
    copy and [backup_tree] raises [FileExistsError], the disk unchanged
    and nothing reported. *)
Theorem backup_tree_same_second (stf script_folder : path) (w : world)
    (es : gmap string node) :
  fault w = no_fault →
  let dest := backup_directory_path stf (str_of_int (int_of_float (clock w))) in
  script_folder ≠ dest →
  stat (disk w) script_folder = Some (Dir es) →
  stat (disk w) dest = Some (Dir es) →
  ((∀ k, is_dir (es !! k) = false) →
   backup_tree stf script_folder w
   = (Return (),
      add_record {| record_logger := root; record_level := INFO;
                    record_msg := "ScriptTree Network Folder Saved: " +:+ render dest |}
        w))
  ∧ ((∃ k, is_dir (es !! k) = true) →
     ∃ k, is_dir (es !! k) = true
          ∧ backup_tree stf script_folder w
            = (Raise (FileExistsError (join dest k)), w)).
Proof.
  intros Hf dest Hne Hsrc Hdst.
  assert (copy_directory script_folder dest w
          = for_each (map_to_list es).*1 (copy_item script_folder dest) w) as Hcopy.
  { unfold copy_directory.
    rewrite (bind_return _ _ _ _ _ (path_exists_run _ _)).
    rewrite bool_decide_eq_true_2 by (by rewrite Hdst). cbn [negb].
    rewrite (bind_return _ _ _ _ _ (ret_run _ _)).
    by rewrite (bind_return _ _ _ _ _ (listdir_run _ _ _ Hf Hsrc)). }
  assert (∀ k, k ∈ (map_to_list es).*1 → is_Some (es !! k)) as Hin.
  { intros k Hk. apply list_elem_of_fmap in Hk as ([k' x] & -> & Hk).
    apply elem_of_map_to_list in Hk. by exists x. }
  destruct (for_each_copy_item_again script_folder dest es w Hne Hf Hsrc Hdst _ Hin)
    as [[Hall Hrun]|(k & Hk & Hdir & Hrun)].
  - split.
    + intros _. unfold backup_tree.
      rewrite (bind_return _ _ _ _ _ (time_time_run _)). cbv zeta. fold dest.
      rewrite <- Hcopy in Hrun. by rewrite (bind_return _ _ _ _ _ Hrun).
    + intros [k Hk]. exfalso.
      destruct (es !! k) as [x|] eqn:Ex; [|done].
      rewrite Forall_forall in Hall. specialize (Hall k).
      rewrite Ex, Hk in Hall.
      assert (k ∈ (map_to_list es).*1) as Hel.
      { apply list_elem_of_fmap. exists (k, x). split; [done|].
        by apply elem_of_map_to_list. }
      by specialize (Hall Hel).
  - split.
    + intros Hfiles. by rewrite Hfiles in Hdir.
    + intros _. exists k. split; [done|]. unfold backup_tree.
      rewrite (bind_return _ _ _ _ _ (time_time_run _)). cbv zeta. fold dest.
      apply bind_raise. by rewrite Hcopy.
Qed.

Lemma backup_tree_same_second_witness :
  ∃ k,
    backup_tree Examples.stf Examples.script_folder
      (Examples.machine MoreExamples.disk_snapshot Examples.now)
    = (Raise (FileExistsError
                (Examples.stf ++ ["ScriptTree_TreeBackup"; "ScriptTree_BACKUP_1700000000"; k])),
       Examples.machine MoreExamples.disk_snapshot Examples.now).
Proof.
  destruct (backup_tree_same_second Examples.stf Examples.script_folder
              (Examples.machine MoreExamples.disk_snapshot Examples.now) Examples.scripts)
    as [_ Hdir].
  - reflexivity.
  - vm_compute. discriminate.
  - reflexivity.
  - reflexivity.
  - destruct Hdir as (k & _ & Hrun).
    + exists "utils". reflexivity.
    + exists k. rewrite Hrun. reflexivity.
Defined.
